(** * BTC14.py: address database, wallet generator, scanner worker, scan start

    A shallow embedding of the scanning core of [BTC14.py]:
    - [AddressDatabase] ([load], [count], [contains], [get_sample_addresses]),
    - [WalletGenerator.generate],
    - [ScannerWorker._process_generation] and [ScannerWorker.run],
    - [MainWindow.start_scan].

    Conventions.
    - A Python [bytes] value is a [list byte]; a Python [str] is represented
      by the [string] holding its UTF-8 encoding.  Strict UTF-8 decoding is
      injective, so equality and set membership of decoded strings coincide
      with equality of their encodings, and a [str] is empty exactly when
      its encoding is.
    - A Python [set] of [str] is a [gset string]; the [addresses] dict of a
      generation is a [gmap string (option string)] (the value [None] is a
      Python [None] stored under a present key).
    - Code that may raise returns a [result]; [except Exception] handlers
      are the matches on [Raise].
    - The outside world (file system, monotonic clock, random choice, the
      [mnemonic] and [bip_utils] libraries) is passed in explicitly.
    - Clock readings, and the speed computed from them, are rationals; the
      rounding of Python floats is not modelled.  Nothing below depends on
      it.
    - The database and the config dict are objects shared between the
      window and its workers.  A worker is given the value they have when
      it is created, which is what it reads for as long as no file is
      loaded and no setting is changed during the scan. *)

From Stdlib Require Import ZArith QArith Lia.
From Stdlib Require Import Strings.Byte.
From Equations Require Import Equations.
From stdpp Require Import gmap strings list.

Local Open Scope string_scope.
Local Open Scope list_scope.
Local Open Scope Z_scope.

(** ** Exceptions and results *)

Inductive exn : Type :=
| FileOpenError        (* open(path, 'r+b') fails: PermissionError, IsADirectoryError, ... *)
| ValueError           (* mmap.mmap on an empty file *)
| UnicodeDecodeError   (* bytes.decode('utf-8') on an ill-formed line *)
| KeyError             (* self.strengths[word_length] on an unknown mode *)
| ZeroDivisionError    (* integer floor division by zero *)
| LibraryError         (* an exception raised inside mnemonic / bip_utils *)
| RuntimeError.        (* raise RuntimeError(f"Generation failed: ...") *)

Inductive result (A : Type) : Type :=
| Ok (a : A)
| Raise (e : exn).
Arguments Ok {A} a.
Arguments Raise {A} e.

(** ** Byte strings *)

Abbreviation bytes := (list byte).

Definition byte_in (lo hi : N) (b : byte) : bool :=
  ((lo <=? Byte.to_N b) && (Byte.to_N b <=? hi))%N.

(** [bytes.strip()] with no argument removes leading and trailing ASCII
    whitespace: space, tab, line feed, carriage return, vertical tab and
    form feed. *)
Definition is_space (b : byte) : bool :=
  match b with
  | x20 | x09 | x0a | x0d | x0b | x0c => true
  | _ => false
  end.

Fixpoint lstrip (l : bytes) : bytes :=
  match l with
  | [] => []
  | b :: r => if is_space b then lstrip r else l
  end.

Definition rstrip (l : bytes) : bytes := rev (lstrip (rev l)).

Definition strip (l : bytes) : bytes := rstrip (lstrip l).

(** [mm.readline()]: the bytes from the current position up to and
    including the next line feed, or up to the end of the map; the second
    component is what remains after the new position.  At the end of the
    map the line is empty. *)
Fixpoint readline (mm : bytes) : bytes * bytes :=
  match mm with
  | [] => ([], [])
  | b :: r =>
      if Byte.eqb b x0a then ([b], r)
      else let '(line, rest) := readline r in (b :: line, rest)
  end.

(** Strict UTF-8 well-formedness (the byte sequences accepted by
    [bytes.decode('utf-8')]): no overlong forms, no surrogates, nothing
    above U+10FFFF. *)
Fixpoint utf8_valid (l : bytes) : bool :=
  match l with
  | [] => true
  | b0 :: r0 =>
      if byte_in 0x00 0x7F b0 then utf8_valid r0
      else
        match r0 with
        | [] => false
        | b1 :: r1 =>
            if byte_in 0xC2 0xDF b0 then byte_in 0x80 0xBF b1 && utf8_valid r1
            else
              match r1 with
              | [] => false
              | b2 :: r2 =>
                  if (byte_in 0xE0 0xE0 b0 && byte_in 0xA0 0xBF b1
                      || byte_in 0xE1 0xEC b0 && byte_in 0x80 0xBF b1
                      || byte_in 0xED 0xED b0 && byte_in 0x80 0x9F b1
                      || byte_in 0xEE 0xEF b0 && byte_in 0x80 0xBF b1)
                  then byte_in 0x80 0xBF b2 && utf8_valid r2
                  else
                    match r2 with
                    | [] => false
                    | b3 :: r3 =>
                        (byte_in 0xF0 0xF0 b0 && byte_in 0x90 0xBF b1
                         || byte_in 0xF1 0xF3 b0 && byte_in 0x80 0xBF b1
                         || byte_in 0xF4 0xF4 b0 && byte_in 0x80 0x8F b1)
                        && byte_in 0x80 0xBF b2 && byte_in 0x80 0xBF b3
                        && utf8_valid r3
                    end
              end
        end
  end.

(** [line.decode('utf-8')]: the decoded [str], represented by its
    encoding, or [UnicodeDecodeError]. *)
Definition decode_utf8 (l : bytes) : result string :=
  if utf8_valid l then Ok (String.string_of_list_byte l) else Raise UnicodeDecodeError.

(** ** The file system and the clock, as [load] sees them *)

(** What [open(path, 'r+b')] followed by [mmap.mmap(..., ACCESS_READ)]
    gives for an existing path. *)
Inductive file_body : Type :=
| Unreadable               (* open raises *)
| Content (data : bytes).  (* the mapped bytes *)

Record file_stat : Type := mk_file_stat {
  st_mtime : Z;        (* path.stat().st_mtime; only compared with == *)
  st_body : file_body
}.

(** Existing paths and their files, keyed by [str(path)]. *)
Definition filesystem : Type := string -> option file_stat.

(** ** AddressDatabase *)

Definition BATCH_SIZE : Z := 100000.

Record AddressDatabase : Type := mk_AddressDatabase {
  addresses : gset string;
  _count : Z;
  load_time : Q;
  file_path : string;
  _last_modified : Z;
  address_list : list string
}.

(** [AddressDatabase.__init__] *)
Definition AddressDatabase_init : AddressDatabase :=
  {| addresses := ∅;
     _count := 0;
     load_time := 0%Q;
     file_path := "";
     _last_modified := 0;
     address_list := [] |}.

(** The four local variables of the read loop of [load]. *)
Record read_state : Type := mk_read_state {
  temp_set : gset string;
  temp_list : list string;
  batch : gset string;
  batch_list : list string
}.

Definition read_state_init : read_state :=
  {| temp_set := ∅; temp_list := []; batch := ∅; batch_list := [] |}.

(** [temp_set.update(batch); temp_list.extend(batch_list);
     batch = set(); batch_list = []] *)
Definition flush_batch (st : read_state) : read_state :=
  {| temp_set := temp_set st ∪ batch st;
     temp_list := temp_list st ++ batch_list st;
     batch := ∅;
     batch_list := [] |}.

(** The body of the [while True] loop for one non-empty [line]. *)
Definition process_line (line : bytes) (st : read_state) : result read_state :=
  match decode_utf8 (strip line) with
  | Raise e => Raise e
  | Ok addr =>
      if bool_decide (addr = "") then Ok st
      else
        let st1 := {| temp_set := temp_set st;
                      temp_list := temp_list st;
                      batch := batch st ∪ {[ addr ]};
                      batch_list := batch_list st ++ [addr] |} in
        if Z.of_nat (size (batch st1)) >=? BATCH_SIZE
        then Ok (flush_batch st1)
        else Ok st1
  end.

Definition inspect {A : Type} (a : A) : {b : A | a = b} := exist _ a eq_refl.

(** [while True: line = mm.readline(); if not line: break; ...].  Each
    non-empty line moves the position forward, which is why the loop ends. *)
Equations? read_loop (mm : bytes) (st : read_state) : result read_state
  by wf (length mm) lt :=
read_loop mm st with inspect (readline mm) := {
  | exist _ ([], _) _ => Ok st
  | exist _ (b :: line, rest) Heq with process_line (b :: line) st := {
    | Raise e => Raise e
    | Ok st' => read_loop rest st'
    }
  }.
Proof.
  clear - Heq.
  assert (Hle : forall m : bytes, (length (readline m).2 <= length m)%nat).
  { induction m as [|c r IH]; simpl; [lia|].
    destruct (Byte.eqb c x0a); simpl; [lia|].
    destruct (readline r) as [l' r']; simpl in *; lia. }
  destruct mm as [|c r]; simpl in Heq; [discriminate|].
  destruct (Byte.eqb c x0a).
  - injection Heq as _ _ <-. simpl. lia.
  - specialize (Hle r). destruct (readline r) as [l' r']; simpl in *.
    injection Heq as _ _ <-. lia.
Qed.

(** The [with open(...)] block of [load]: the final [temp_set] and
    [temp_list], or the exception that leaves the block. *)
Definition read_file (body : file_body) : result (gset string * list string) :=
  match body with
  | Unreadable => Raise FileOpenError
  | Content [] => Raise ValueError            (* cannot mmap an empty file *)
  | Content data =>
      match read_loop data read_state_init with
      | Raise e => Raise e
      | Ok st =>
          if bool_decide (batch st = ∅) then Ok (temp_set st, temp_list st)
          else Ok (temp_set st ∪ batch st, temp_list st ++ batch_list st)
      end
  end.

Section Database.

(** [str(Path(file_path))], pathlib's normalised rendering of a path. *)
Variable path_str : string -> string.

(** [AddressDatabase.load].  [fs] is the file system at the time of the
    call, [t0] and [t1] the two readings of [time.monotonic()]. *)
Definition load (self : AddressDatabase) (fs : filesystem) (t0 t1 : Q)
    (file_path_arg : string) : bool * AddressDatabase :=
  let path := path_str file_path_arg in
  match fs path with
  | None => (false, self)                                   (* not path.exists() *)
  | Some st =>
      let current_mtime := st_mtime st in
      if bool_decide (file_path self = path) && (_last_modified self =? current_mtime)
      then (true, self)                                     (* Already loaded *)
      else
        let self1 := {| addresses := addresses self;
                        _count := _count self;
                        load_time := load_time self;
                        file_path := path;
                        _last_modified := current_mtime;
                        address_list := address_list self |} in
        match read_file (st_body st) with
        | Raise _ => (false, self1)                         (* except Exception *)
        | Ok (tset, tlist) =>
            (true, {| addresses := tset;
                      _count := Z.of_nat (size tset);
                      load_time := (t1 - t0)%Q;
                      file_path := path;
                      _last_modified := current_mtime;
                      address_list := tlist |})
        end
  end.

End Database.

(** [AddressDatabase.count] *)
Definition count (self : AddressDatabase) : Z := _count self.

(** [AddressDatabase.contains] *)
Definition contains (self : AddressDatabase) (address : string) : bool :=
  bool_decide (address ∈ addresses self).

(** Extended slicing [l[::step]] for [step > 0], written with the number
    of elements still to skip: [stride_from 0 (step - 1) l]. *)
Fixpoint stride_from {A : Type} (skip gap : nat) (l : list A) : list A :=
  match l with
  | [] => []
  | x :: r =>
      match skip with
      | O => x :: stride_from gap gap r
      | S k => stride_from k gap r
      end
  end.

(** [l[::step]]: indices [0, step, 2*step, ...] for a positive step,
    [len-1, len-1+step, ...] for a negative one, [ValueError] for zero. *)
Definition slice_step {A : Type} (l : list A) (step : Z) : result (list A) :=
  if step =? 0 then Raise ValueError
  else if 0 <? step then Ok (stride_from 0 (Z.to_nat (step - 1)) l)
  else Ok (stride_from 0 (Z.to_nat (- step - 1)) (rev l)).

(** [l[:n]]: the first [n] elements, or all but the last [-n] when [n]
    is negative. *)
Definition slice_to {A : Type} (l : list A) (n : Z) : list A :=
  if 0 <=? n then take (Z.to_nat n) l
  else take (Z.to_nat (Z.of_nat (length l) + n)) l.

(** [a // b] *)
Definition floordiv (a b : Z) : result Z :=
  if b =? 0 then Raise ZeroDivisionError else Ok (a / b).

(** [AddressDatabase.get_sample_addresses] *)
Definition get_sample_addresses (self : AddressDatabase) (count : Z)
    : result (list string) :=
  if Z.of_nat (length (address_list self)) <=? count
  then Ok (address_list self)
  else
    match floordiv (Z.of_nat (length (address_list self))) count with
    | Raise e => Raise e
    | Ok step =>
        match slice_step (address_list self) step with
        | Raise e => Raise e
        | Ok strided => Ok (slice_to strided count)
        end
    end.

(** ** WalletGenerator *)

Inductive bip_class : Type := Bip44 | Bip49 | Bip84 | Bip86.
Inductive bip_coin : Type := Bip44Coins_BITCOIN | Bip49Coins_BITCOIN
                           | Bip84Coins_BITCOIN | Bip86Coins_BITCOIN.

(** [WalletGenerator.DERIVATION_PATHS], in the dict's insertion order. *)
Definition DERIVATION_PATHS : list (string * (bip_class * bip_coin)) :=
  [ ("P2PKH", (Bip44, Bip44Coins_BITCOIN));
    ("P2SH-P2WPKH", (Bip49, Bip49Coins_BITCOIN));
    ("P2WPKH", (Bip84, Bip84Coins_BITCOIN));
    ("P2TR", (Bip86, Bip86Coins_BITCOIN)) ].

Definition DISPLAY_HISTORY : Z := 10.

(** The [generation] dict built by [generate]. *)
Record generation : Type := mk_generation {
  gen_mnemonic : string;
  gen_addresses : gmap string (option string);
  gen_time : string;
  gen_word_length : string
}.

Record WalletGenerator : Type := mk_WalletGenerator {
  mode : string;
  _last_generation : option generation;
  generation_history : list generation
}.

(** [WalletGenerator.__init__] *)
Definition WalletGenerator_init (mode : string) : WalletGenerator :=
  {| mode := mode; _last_generation := None; generation_history := [] |}.

(** [self.strengths[word_length]] with [strengths = {"12": 128, "24": 256}] *)
Definition strengths (word_length : string) : result Z :=
  if bool_decide (word_length = "12") then Ok 128
  else if bool_decide (word_length = "24") then Ok 256
  else Raise KeyError.

(** What one call of [generate] draws from outside the program. *)
Record gen_input : Type := mk_gen_input {
  choice_24 : bool;     (* random.choice(["12", "24"]) picked "24" *)
  entropy : bytes;      (* the random bytes behind Mnemonic.generate *)
  now_hms : string      (* datetime.now().strftime("%H:%M:%S") *)
}.

Section Scanner.

(** The cryptographic libraries: [Mnemonic("english").generate(strength)],
    [Bip39SeedGenerator(mnemonic).Generate()] and
    [bip_class.FromSeed(seed, coin).DeriveDefaultPath().PublicKey().ToAddress()].
    Each may raise. *)
Variable mnemonic_generate : Z -> bytes -> result string.
Variable Bip39SeedGenerate : string -> result bytes.
Variable derive_default_address : bip_class -> bip_coin -> bytes -> result string.

(** The [for addr_type, (bip_class, coin) in DERIVATION_PATHS.items()]
    loop with its inner [try]/[except]. *)
Definition derive_step (seed : bytes) (addresses : gmap string (option string))
    (item : string * (bip_class * bip_coin)) : gmap string (option string) :=
  let '(addr_type, (cls, coin)) := item in
  match derive_default_address cls coin seed with
  | Ok a => <[addr_type := Some a]> addresses
  | Raise _ => <[addr_type := None]> addresses
  end.

Definition derive_all (seed : bytes) : gmap string (option string) :=
  foldl (derive_step seed) ∅ DERIVATION_PATHS.

(** [random.choice(["12", "24"]) if self.mode == "random" else self.mode] *)
Definition word_length_of (mode : string) (inp : gen_input) : string :=
  if bool_decide (mode = "random")
  then (if choice_24 inp then "24" else "12")
  else mode.

(** The part of the [try] block of [generate] that can raise. *)
Definition generate_body (mode : string) (inp : gen_input)
    : result (string * gmap string (option string) * string) :=
  let word_length := word_length_of mode inp in
  match strengths word_length with
  | Raise e => Raise e
  | Ok strength =>
      match mnemonic_generate strength (entropy inp) with
      | Raise e => Raise e
      | Ok mnemonic =>
          match Bip39SeedGenerate mnemonic with
          | Raise e => Raise e
          | Ok seed => Ok (mnemonic, derive_all seed, word_length)
          end
      end
  end.

(** [self.generation_history.append(generation)] followed by the
    [pop(0)] that keeps the last [DISPLAY_HISTORY] entries. *)
Definition push_history (h : list generation) (g : generation) : list generation :=
  let h1 := h ++ [g] in
  if Z.of_nat (length h1) >? DISPLAY_HISTORY then drop 1 h1 else h1.

(** [WalletGenerator.generate] *)
Definition generate (self : WalletGenerator) (inp : gen_input)
    : result (string * gmap string (option string)) * WalletGenerator :=
  match generate_body (mode self) inp with
  | Ok (mnemonic, addresses, word_length) =>
      let g := {| gen_mnemonic := mnemonic;
                  gen_addresses := addresses;
                  gen_time := now_hms inp;
                  gen_word_length := word_length |} in
      (Ok (mnemonic, addresses),
       {| mode := mode self;
          _last_generation := Some g;
          generation_history := push_history (generation_history self) g |})
  | Raise _ =>
      match _last_generation self with
      | Some lg => (Ok (gen_mnemonic lg, gen_addresses lg), self)
      | None => (Raise RuntimeError, self)
      end
  end.

(** ** ScannerWorker *)

(** The entries of the shared config dict that the scanner reads. *)
Record Config : Type := mk_Config {
  thread_limit : Z;
  mnemonic_mode : string;
  active_address_types : list string
}.

(** The payloads of the worker's Qt signals. *)
Inductive event : Type :=
| found_signal (worker : Z) (mnemonic : string)
               (matches : list (string * string)) (timestamp : string)
| generation_signal (worker : Z) (mnemonic : string)
                    (addresses : gmap string (option string)) (time : string)
| progress_signal (worker : Z) (checked found : Z) (speed : Q)
| error_signal_error (worker : Z) (e : exn)     (* "Worker {id} error: ..." *)
| error_signal_crashed (worker : Z) (e : exn).  (* "Worker {id} crashed: ..." *)

Record ScannerWorker : Type := mk_ScannerWorker {
  id : Z;
  db : AddressDatabase;
  config : Config;
  generator : WalletGenerator;
  _running : bool;
  _checked : Z;
  _found : Z;
  _start_time : Q
}.

(** [ScannerWorker.__init__] *)
Definition ScannerWorker_init (worker_id : Z) (db : AddressDatabase) (config : Config)
    : ScannerWorker :=
  {| id := worker_id; db := db; config := config;
     generator := WalletGenerator_init (mnemonic_mode config);
     _running := false; _checked := 0; _found := 0; _start_time := 0%Q |}.

(** What one loop iteration draws from outside the worker. *)
Record iter_input : Type := mk_iter_input {
  gen_in : gen_input;
  now_iso : string;       (* datetime.now().isoformat() *)
  now_time : string;      (* datetime.now().strftime("%H:%M:%S") *)
  monotonic : Q;          (* time.monotonic() *)
  stop_requested : bool   (* another thread called stop() during the iteration *)
}.

(** The [for addr_type in self.config["active_address_types"]] loop:
    [addr = addresses.get(addr_type)], kept when [addr] is truthy and
    in the database. *)
Definition find_matches (db : AddressDatabase) (addresses : gmap string (option string))
    (types : list string) : list (string * string) :=
  omap (fun addr_type =>
          match addresses !! addr_type with
          | Some (Some addr) =>
              if negb (bool_decide (addr = "")) && contains db addr
              then Some (addr_type, addr) else None
          | _ => None
          end) types.

(** [max(0.1, elapsed)] *)
Definition max_tenth (elapsed : Q) : Q :=
  if Qle_bool elapsed (1 # 10) then (1 # 10)%Q else elapsed.

(** [ScannerWorker._process_generation]: the new worker state and the
    signals emitted, in order. *)
Definition _process_generation (self : ScannerWorker) (inp : iter_input)
    : ScannerWorker * list event :=
  match generate (generator self) (gen_in inp) with
  | (Raise e, gen') =>
      ({| id := id self; db := db self; config := config self;
          generator := gen';
          _running := _running self; _checked := _checked self;
          _found := _found self; _start_time := _start_time self |},
       [error_signal_error (id self) e])
  | (Ok (mnemonic, addresses), gen') =>
      let found := find_matches (db self) addresses
                     (active_address_types (config self)) in
      let checked := _checked self + Z.of_nat (size addresses) in
      let nfound := if bool_decide (found = []) then _found self
                    else _found self + Z.of_nat (length found) in
      let ev_found := if bool_decide (found = []) then []
                      else [found_signal (id self) mnemonic found (now_iso inp)] in
      let ev_gen := [generation_signal (id self) mnemonic addresses (now_time inp)] in
      let ev_progress :=
        if checked mod 100 =? 0
        then [progress_signal (id self) checked nfound
                (inject_Z checked / max_tenth (monotonic inp - _start_time self))%Q]
        else [] in
      ({| id := id self; db := db self; config := config self;
          generator := gen';
          _running := _running self; _checked := checked;
          _found := nfound; _start_time := _start_time self |},
       ev_found ++ ev_gen ++ ev_progress)
  end.

Definition set_running (self : ScannerWorker) (b : bool) : ScannerWorker :=
  {| id := id self; db := db self; config := config self;
     generator := generator self;
     _running := b; _checked := _checked self;
     _found := _found self; _start_time := _start_time self |}.

(** The first two statements of [ScannerWorker.run]. *)
Definition run_enter (self : ScannerWorker) (t : Q) : ScannerWorker :=
  {| id := id self; db := db self; config := config self;
     generator := generator self;
     _running := true; _checked := _checked self;
     _found := _found self; _start_time := t |}.

(** The [while self._running] loop of [run], unrolled over the inputs
    of its first iterations.  [stop()] from another thread clears
    [_running]; nothing inside the loop body does.  The result is the
    worker state when the inputs are used up or the loop has exited,
    with all signals emitted so far.  The body catches every [Exception]
    itself, so the [except] of [run] ("crashed") is not reached from it,
    and the [finally] stores the value [_running] has when the loop
    exits. *)
Fixpoint run_loop (self : ScannerWorker) (inputs : list iter_input)
    : ScannerWorker * list event :=
  match inputs with
  | [] => (self, [])
  | inp :: rest =>
      if _running self then
        let '(self1, evs) := _process_generation self inp in
        let self2 := if stop_requested inp then set_running self1 false else self1 in
        let '(self3, evs') := run_loop self2 rest in
        (self3, evs ++ evs')
      else (self, [])
  end.

(** [ScannerWorker.run] up to the given iterations; [t] is the reading
    of the clock on entry. *)
Definition run (self : ScannerWorker) (t : Q) (inputs : list iter_input)
    : ScannerWorker * list event :=
  run_loop (run_enter self t) inputs.

(** ** MainWindow: starting and stopping a scan *)

(** The [log_message] calls of [start_scan] and [stop_scan]. *)
Inductive log_entry : Type :=
| log_no_addresses               (* "Error: No addresses loaded", "error" *)
| log_stopped                    (* "Scanning stopped", "info" *)
| log_started (threads : Z).     (* "Scanning started with {n} threads", "info" *)

Record MainWindow : Type := mk_MainWindow {
  address_db : AddressDatabase;
  win_config : Config;
  workers : list ScannerWorker;
  checks : list (string * bool);     (* address type, check.isChecked() *)
  spn_threads : Z;                   (* self.spn_threads.value() *)
  cmb_mode : string;                 (* self.cmb_mode.currentText() *)
  total_checked : Z;
  total_found : Z;
  btn_start_enabled : bool;
  btn_stop_enabled : bool;
  log : list log_entry
}.

Definition mode_of_text (text : string) : string :=
  if bool_decide (text = "Random") then "random"
  else if bool_decide (text = "12 Words") then "12"
  else if bool_decide (text = "24 Words") then "24"
  else "random".

(** [MainWindow.stop_scan] *)
Definition stop_scan (self : MainWindow) : MainWindow :=
  match workers self with
  | [] => self
  | _ =>
      {| address_db := address_db self; win_config := win_config self;
         workers := [];
         checks := checks self; spn_threads := spn_threads self;
         cmb_mode := cmb_mode self;
         total_checked := total_checked self; total_found := total_found self;
         btn_start_enabled := true; btn_stop_enabled := false;
         log := log self ++ [log_stopped] |}
  end.

(** [ScannerWorker(i+1, ...)] for [i in range(n)], each started. *)
Definition spawn_workers (db : AddressDatabase) (cfg : Config) (n : Z)
    : list ScannerWorker :=
  map (fun i : nat => ScannerWorker_init (Z.of_nat i + 1) db cfg)
      (seq 0 (Z.to_nat n)).

(** [MainWindow.start_scan].  [self.config.save_config()] writes the
    config file and changes nothing in memory; [worker.start()] starts the
    thread that executes [run]. *)
Definition start_scan (self : MainWindow) : MainWindow :=
  if count (address_db self) =? 0 then
    {| address_db := address_db self; win_config := win_config self;
       workers := workers self;
       checks := checks self; spn_threads := spn_threads self;
       cmb_mode := cmb_mode self;
       total_checked := total_checked self; total_found := total_found self;
       btn_start_enabled := btn_start_enabled self;
       btn_stop_enabled := btn_stop_enabled self;
       log := log self ++ [log_no_addresses] |}
  else
    let cfg := {| thread_limit := spn_threads self;
                  mnemonic_mode := mode_of_text (cmb_mode self);
                  active_address_types :=
                    map fst (filter (fun tc => snd tc = true) (checks self)) |} in
    let s1 := stop_scan
                {| address_db := address_db self; win_config := cfg;
                   workers := workers self;
                   checks := checks self; spn_threads := spn_threads self;
                   cmb_mode := cmb_mode self;
                   total_checked := total_checked self;
                   total_found := total_found self;
                   btn_start_enabled := btn_start_enabled self;
                   btn_stop_enabled := btn_stop_enabled self;
                   log := log self |} in
    {| address_db := address_db s1; win_config := cfg;
       workers := workers s1
                  ++ spawn_workers (address_db s1) cfg (thread_limit cfg);
       checks := checks s1; spn_threads := spn_threads s1;
       cmb_mode := cmb_mode s1;
       total_checked := 0; total_found := 0;
       btn_start_enabled := false; btn_stop_enabled := true;
       log := log s1 ++ [log_started (thread_limit cfg)] |}.

End Scanner.

(** ** Reference notions for the statements about [load] *)

#[global] Instance byte_eq_dec : EqDecision byte := Byte.byte_eq_dec.

(** The lines of a file: the maximal runs of bytes between line feeds,
    without their terminators; a final line feed does not open a further
    line. *)
Fixpoint file_lines (data : bytes) : list bytes :=
  match data with
  | [] => []
  | b :: r =>
      if Byte.eqb b x0a then [] :: file_lines r
      else
        match file_lines r with
        | [] => [[b]]
        | l :: ls => (b :: l) :: ls
        end
  end.

(** The trimmed lines that are not blank, in file order. *)
Definition nonblank_trimmed_lines (data : bytes) : list bytes :=
  filter (fun l : bytes => l <> []) (map strip (file_lines data)).

(** The same lines as decoded strings. *)
Definition file_addresses (data : bytes) : list string :=
  map String.string_of_list_byte (nonblank_trimmed_lines data).

(** The addresses one line contributes. *)
Definition line_addresses (l : bytes) : list string :=
  map String.string_of_list_byte (filter (fun l : bytes => l <> []) [strip l]).

(** Every trimmed line of the file is well-formed UTF-8. *)
Definition decodable (data : bytes) : Prop :=
  Forall (fun l : bytes => utf8_valid (strip l) = true) (file_lines data).

(** What the read loop has collected so far. *)
Definition all_list (st : read_state) : list string := temp_list st ++ batch_list st.
Definition all_set (st : read_state) : gset string := temp_set st ∪ batch st.
Definition batch_inv (st : read_state) : Prop := batch st = list_to_set (batch_list st).

(** [load] reads the file: the path exists and the recorded path and
    modification time do not both match. *)
Definition reads_file (path_str : string -> string) (self : AddressDatabase)
    (fs : filesystem) (file_path_arg : string) : Prop :=
  match fs (path_str file_path_arg) with
  | None => False
  | Some st => file_path self <> path_str file_path_arg \/ _last_modified self <> st_mtime st
  end.

(** The bytes [load] would map for a path, if it exists and can be opened. *)
Definition file_data (path_str : string -> string) (fs : filesystem)
    (file_path_arg : string) : option bytes :=
  match fs (path_str file_path_arg) with
  | Some {| st_body := Content data |} => Some data
  | _ => None
  end.

(** The modification time [load] would see for a path. *)
Definition file_mtime (path_str : string -> string) (fs : filesystem)
    (file_path_arg : string) : option Z :=
  st_mtime <$> fs (path_str file_path_arg).

(** ** Concrete inputs used in the examples below *)

(** Paths that are already in pathlib's normal form. *)
Definition ex_path_str (p : string) : string := p.

Definition ex_file_one : bytes :=
  String.list_byte_of_string "1BoatSLRHtKNngkdXEeobR76b53LETtpyT" ++ [x0a].

Definition ex_file_two : bytes :=
  String.list_byte_of_string "1A1zP1eP5QGefi2DMPTfTL5SLmv7DivfNa" ++ [x0a].

Definition ex_file_three : bytes :=
  String.list_byte_of_string "1BoatSLRHtKNngkdXEeobR76b53LETtpyT" ++ [x0a]
  ++ String.list_byte_of_string "  1A1zP1eP5QGefi2DMPTfTL5SLmv7DivfNa " ++ [x0d; x0a]
  ++ [x0a]
  ++ String.list_byte_of_string "1BoatSLRHtKNngkdXEeobR76b53LETtpyT".

(** A file system holding one file, [addresses.txt], with modification
    time 5. *)
Definition ex_fs (body : file_body) : filesystem :=
  fun p => if bool_decide (p = "addresses.txt") then Some (mk_file_stat 5 body) else None.

(** The database after loading [ex_file_one] into a fresh one. *)
Definition ex_db_one : AddressDatabase :=
  (load ex_path_str AddressDatabase_init (ex_fs (Content ex_file_one)) 0%Q 1%Q
        "addresses.txt").2.

(** A database whose ordered list is given. *)
Definition ex_db_list (l : list string) : AddressDatabase :=
  {| addresses := list_to_set l; _count := Z.of_nat (size (list_to_set l : gset string));
     load_time := 0%Q; file_path := "addresses.txt"; _last_modified := 5;
     address_list := l |}.

(** Stand-ins for the cryptographic libraries. *)
Definition ex_mnemonic_generate (strength : Z) (entropy : bytes) : result string :=
  if strength =? 128
  then Ok "legal winner thank year wave sausage worth useful legal winner thank yellow"
  else Raise LibraryError.

(** A mnemonic library whose every call raises (no entropy available). *)
Definition ex_mnemonic_unavailable (strength : Z) (entropy : bytes) : result string :=
  Raise LibraryError.

Definition ex_seed (mnemonic : string) : result bytes := Ok [x2a].

(** All four schemes derive. *)
Definition ex_derive (cls : bip_class) (coin : bip_coin) (seed : bytes) : result string :=
  match cls with
  | Bip44 => Ok "1PbdWpp4kx8Zt2JXoBCPJDhQf7gHt1tnsL"
  | Bip49 => Ok "3Qm9S5gmH7yzPc3wWdNVvhdzWEN9HmfcMN"
  | Bip84 => Ok "bc1q0xc3a0jsy6tr6qv43hkrx6xvgl3xwhqls8z2vm"
  | Bip86 => Ok "bc1p4qhjn9zdvkux4e44uhx8tc55attvtyu358kutcqkudyccelu0was9fqzwh"
  end.

(** Taproot derivation raises; the other three schemes derive. *)
Definition ex_derive_no_taproot (cls : bip_class) (coin : bip_coin) (seed : bytes)
    : result string :=
  match cls with
  | Bip86 => Raise LibraryError
  | _ => ex_derive cls coin seed
  end.

Definition ex_gen_input : gen_input :=
  {| choice_24 := false; entropy := [x00]; now_hms := "12:00:00" |}.

(** One loop iteration, ten seconds after the worker started, with no
    stop request. *)
Definition ex_iter_input : iter_input :=
  {| gen_in := ex_gen_input; now_iso := "2024-01-01T12:00:00";
     now_time := "12:00:00"; monotonic := 10%Q; stop_requested := false |}.

Definition ex_config (mode : string) : Config :=
  {| thread_limit := 2; mnemonic_mode := mode;
     active_address_types := ["P2PKH"; "P2SH-P2WPKH"; "P2WPKH"; "P2TR"] |}.

(** Worker 1 over [ex_db_one], as constructed by [start_scan]. *)
Definition ex_worker (mode : string) : ScannerWorker :=
  ScannerWorker_init 1 ex_db_one (ex_config mode).

(** A window with one address loaded, two threads selected and no
    address type checked. *)
Definition ex_window_no_types : MainWindow :=
  {| address_db := ex_db_one;
     win_config := ex_config "random";
     workers := [];
     checks := [("P2PKH", false); ("P2SH-P2WPKH", false);
                ("P2WPKH", false); ("P2TR", false)];
     spn_threads := 2;
     cmb_mode := "Random";
     total_checked := 0; total_found := 0;
     btn_start_enabled := true; btn_stop_enabled := false;
     log := [] |}.

(** The progress signals among a list of signals. *)
Definition is_progress_signal (ev : event) : bool :=
  match ev with progress_signal _ _ _ _ => true | _ => false end.

Definition progress_signals (evs : list event) : list event :=
  filter (fun ev => is_progress_signal ev = true) evs.

(** The generation signals, one per candidate processed. *)
Definition generation_signals (evs : list event) : list event :=
  filter (fun ev => match ev with generation_signal _ _ _ _ => true | _ => false end
                    = true) evs.

(** The signals that report an error. *)
Definition is_error_signal (ev : event) : bool :=
  match ev with
  | error_signal_error _ _ | error_signal_crashed _ _ => true
  | _ => false
  end.

(** [None] for a derivation that raised, the address otherwise. *)
Definition address_or_none (r : result string) : option string :=
  match r with Ok a => Some a | Raise _ => None end.

(** ** Reference notions for the statements about [generate] *)

(** The generator after a series of [generate] calls. *)
Definition run_generates (mg : Z -> bytes -> result string)
    (sg : string -> result bytes)
    (dv : bip_class -> bip_coin -> bytes -> result string)
    (g : WalletGenerator) (inputs : list gen_input) : WalletGenerator :=
  foldl (fun g inp => (generate mg sg dv g inp).2) g inputs.

(** What a call whose [try] block runs to its end returns. *)
Definition fresh_generation (mg : Z -> bytes -> result string)
    (sg : string -> result bytes)
    (dv : bip_class -> bip_coin -> bytes -> result string)
    (mode : string) (inp : gen_input)
    : option (string * gmap string (option string)) :=
  match generate_body mg sg dv mode inp with
  | Ok (mnemonic, addresses, _) => Some (mnemonic, addresses)
  | Raise _ => None
  end.

(** The mnemonic and addresses of the most recent successful generation
    among a series of calls, if there is one. *)
Definition last_success (mg : Z -> bytes -> result string)
    (sg : string -> result bytes)
    (dv : bip_class -> bip_coin -> bytes -> result string)
    (mode : string) (inputs : list gen_input)
    : option (string * gmap string (option string)) :=
  last (omap (fresh_generation mg sg dv mode) inputs).

Definition generation_pair (g : generation) : string * gmap string (option string) :=
  (gen_mnemonic g, gen_addresses g).

(** A call of [generate] in random mode that draws 24 words, for which
    [ex_mnemonic_generate] raises. *)
Definition ex_gen_input_24 : gen_input :=
  {| choice_24 := true; entropy := [x00]; now_hms := "12:00:01" |}.

(** ** Reference notions for the further properties *)

(** One call of [load]: the file system and the clock readings at the
    time of the call, and the path passed. *)
Record load_call : Type := mk_load_call {
  call_fs : filesystem;
  call_t0 : Q;
  call_t1 : Q;
  call_path : string
}.

(** The database after a series of [load] calls, whatever they returned. *)
Definition run_loads (path_str : string -> string) (db : AddressDatabase)
    (calls : list load_call) : AddressDatabase :=
  foldl (fun db c => (load path_str db (call_fs c) (call_t0 c) (call_t1 c)
                           (call_path c)).2) db calls.

(** The published set and count agree with the ordered list, and the
    list holds no empty string. *)
Definition db_consistent (db : AddressDatabase) : Prop :=
  addresses db = list_to_set (address_list db)
  /\ _count db = Z.of_nat (size (addresses db))
  /\ "" ∉ address_list db.

(** The found signals among a list of signals. *)
Definition is_found_signal (ev : event) : bool :=
  match ev with found_signal _ _ _ _ => true | _ => false end.

Definition found_signals (evs : list event) : list event :=
  filter (fun ev => is_found_signal ev = true) evs.

(** The number of (type, address) pairs reported by the found signals. *)
Fixpoint matches_reported (evs : list event) : Z :=
  match evs with
  | [] => 0
  | found_signal _ _ matches _ :: rest => Z.of_nat (length matches) + matches_reported rest
  | _ :: rest => matches_reported rest
  end.

(** The [checked] fields of the progress signals, in order. *)
Definition progress_checked (evs : list event) : list Z :=
  omap (fun ev => match ev with
                  | progress_signal _ checked _ _ => Some checked
                  | _ => None
                  end) evs.

(** The [generation] dict of a call whose [try] block runs to its end. *)
Definition fresh_record (mg : Z -> bytes -> result string)
    (sg : string -> result bytes)
    (dv : bip_class -> bip_coin -> bytes -> result string)
    (mode : string) (inp : gen_input) : option generation :=
  match generate_body mg sg dv mode inp with
  | Ok (mnemonic, addresses, word_length) =>
      Some {| gen_mnemonic := mnemonic; gen_addresses := addresses;
              gen_time := now_hms inp; gen_word_length := word_length |}
  | Raise _ => None
  end.

(** [WalletGenerator.get_recent_generations]: a copy of the history. *)
Definition get_recent_generations (self : WalletGenerator) : list generation :=
  generation_history self.

(** The address dict of the last generation, if any, has the four
    entries of [DERIVATION_PATHS]. *)
Definition last_generation_ok (g : WalletGenerator) : Prop :=
  match _last_generation g with
  | Some lg => size (gen_addresses lg) = 4%nat
  | None => True
  end.

(** A derived address of an active type that is in the index. *)
Definition is_match (db : AddressDatabase) (addresses : gmap string (option string))
    (types : list string) (t addr : string) : Prop :=
  t ∈ types /\ addresses !! t = Some (Some addr) /\ addr <> ""
  /\ contains db addr = true.


(** Derivations whose legacy address is the one in [ex_db_one]. *)
Definition ex_derive_hit (cls : bip_class) (coin : bip_coin) (seed : bytes)
    : result string :=
  match cls with
  | Bip44 => Ok "1BoatSLRHtKNngkdXEeobR76b53LETtpyT"
  | _ => ex_derive cls coin seed
  end.

(** ** ConfigManager *)

(** JSON documents, as [json.load] returns them and [json.dump] writes
    them; an object is a Python dict. *)
#[warnings="-register-all"]
Inductive json : Type :=
| JNull
| JBool (b : bool)
| JNum (n : Z)
| JFloat (q : Q)
| JStr (s : string)
| JArr (items : list json)
| JObj (members : list (string * json)).

Definition VERSION : string := "5.0.0".

Definition ADDRESS_TYPES : list string := ["P2PKH"; "P2SH-P2WPKH"; "P2WPKH"; "P2TR"].

(** [self.default_config] of [ConfigManager.__init__]; [cpu_count] is
    [cpu_count()] and [home] is [str(Path.home())]. *)
Definition default_config (cpu_count : Z) (home : string) : gmap string json :=
  list_to_map
    [ ("version", JStr VERSION);
      ("thread_limit", JNum (Z.max 1 (cpu_count - 2)));
      ("mnemonic_mode", JStr "random");
      ("address_files", JArr []);
      ("address_count", JNum 0);
      ("active_address_types", JArr (map JStr ADDRESS_TYPES));
      ("auto_save", JBool true);
      ("save_interval", JNum 300);
      ("theme", JStr "Dark");
      ("window_size", JArr [JNum 1280; JNum 800]);
      ("recent_mnemonics", JArr []);
      ("performance_mode", JBool false);
      ("last_directory", JStr home) ].

(** [config.setdefault(key, value)] *)
Definition setdefault (key : string) (value : json) (config : gmap string json)
    : gmap string json :=
  match config !! key with
  | Some _ => config
  | None => <[key := value]> config
  end.

(** [ConfigManager._migrate_config] *)
Definition _migrate_config (home : string) (config : gmap string json)
    : gmap string json :=
  setdefault "last_directory" (JStr home)
    (setdefault "performance_mode" (JBool false)
       (<["version" := JStr VERSION]> config)).

(** What [_load_config] finds at [CONFIG_FILE]. *)
Inductive config_file : Type :=
| NoConfigFile                            (* not self.config_path.exists() *)
| BrokenConfigFile                        (* open or json.load raises, or the
                                             document is not an object, so that
                                             config.get raises *)
| ConfigObject (config : gmap string json).

(** [config.get("version") != VERSION] *)
Definition version_differs (config : gmap string json) : bool :=
  match config !! "version" with
  | Some (JStr v) => negb (bool_decide (v = VERSION))
  | _ => true
  end.

(** [ConfigManager._load_config] *)
Definition _load_config (cpu_count : Z) (home : string) (file : config_file)
    : gmap string json :=
  match file with
  | NoConfigFile => default_config cpu_count home
  | BrokenConfigFile => default_config cpu_count home          (* except Exception *)
  | ConfigObject config =>
      if version_differs config then _migrate_config home config else config
  end.

(** [ConfigManager.save_config].  The config is written to a temporary
    file which then replaces [CONFIG_FILE] in one step; [written] tells
    whether every step of the [try] block went through.  Only
    [CONFIG_FILE] is tracked, and what is written is read back as the
    same document. *)
Definition save_config (config : gmap string json) (file : config_file)
    (written : bool) : bool * config_file :=
  if written then (true, ConfigObject config) else (false, file).

(** The mode map of [MainWindow.load_config]:
    [mode_map.get(self.config.config["mnemonic_mode"], "Random")] on a
    mode that is a string. *)
Definition text_of_mode (mode : string) : string :=
  if bool_decide (mode = "random") then "Random"
  else if bool_decide (mode = "12") then "12 Words"
  else if bool_decide (mode = "24") then "24 Words"
  else "Random".

(** [MainWindow.update_config_mode] *)
Definition update_config_mode (cmb_text : string) (config : gmap string json)
    : gmap string json :=
  <["mnemonic_mode" := JStr (mode_of_text cmb_text)]> config.

(** A config file written by version 4: no [performance_mode], no
    [last_directory], a user's own thread limit. *)
Definition ex_old_config : gmap string json :=
  list_to_map [ ("version", JStr "4.2.0"); ("thread_limit", JNum 6);
                ("mnemonic_mode", JStr "24") ].

(** ** MainWindow: the slots connected to the workers' signals *)

(** ["\n"] and ["=" * 40] *)
Definition nl : string := String.string_of_list_byte [x0a].
Definition rule40 : string := "========================================".

(** The entries [handle_found] and [handle_error] add to the log view. *)
Inductive dash_entry : Type :=
| dash_found_match (worker : Z)   (* "Found match! Worker #{n}", "success" *)
| dash_save_error                 (* "Error saving results: ...", "error" *)
| dash_error (worker : Z) (e : exn) (crashed : bool).  (* the error signal's message, "error" *)

(** A row of the generation table: time, mnemonic, addresses text. *)
Record table_row : Type := mk_table_row {
  row_time : string;
  row_mnemonic : string;
  row_addresses : string
}.

Record Dashboard : Type := mk_Dashboard {
  dash_total_checked : Z;            (* self.total_checked *)
  dash_total_found : Z;              (* self.total_found *)
  dash_start_time : Q;               (* self.start_time *)
  results_file : list string;        (* the strings written to RESULTS_FILE, in order *)
  dash_log : list dash_entry;
  lbl_checked : Z;                   (* the number shown by lbl_checked *)
  lbl_found : Z;
  lbl_speed : Q;
  lbl_time : Z;                      (* whole seconds shown by lbl_time *)
  generation_table : list table_row
}.

(** The [f.write] calls of [handle_found] for one result. *)
Definition found_record (mnemonic : string) (matches : list (string * string))
    (timestamp : string) : list string :=
  [ nl +:+ rule40 +:+ nl;
    "Found: " +:+ timestamp +:+ nl;
    "Mnemonic: " +:+ mnemonic +:+ nl ]
  ++ map (fun m : string * string => m.1 +:+ ": " +:+ m.2 +:+ nl) matches
  ++ [ rule40 +:+ nl ].

(** [MainWindow.handle_found].  [writable] tells whether RESULTS_FILE can
    be opened for appending; when it cannot, nothing is written. *)
Definition handle_found (self : Dashboard) (worker : Z) (mnemonic : string)
    (matches : list (string * string)) (timestamp : string) (writable : bool)
    : Dashboard :=
  let total := dash_total_found self + Z.of_nat (length matches) in
  {| dash_total_checked := dash_total_checked self;
     dash_total_found := total;
     dash_start_time := dash_start_time self;
     results_file := if writable
                     then results_file self ++ found_record mnemonic matches timestamp
                     else results_file self;
     dash_log := dash_log self
                 ++ [if writable then dash_found_match worker else dash_save_error];
     lbl_checked := lbl_checked self; lbl_found := lbl_found self;
     lbl_speed := lbl_speed self; lbl_time := lbl_time self;
     generation_table := generation_table self |}.

(** [int(elapsed)]: truncation toward zero. *)
Definition int_of_Q (q : Q) : Z := Z.quot (Qnum q) (Zpos (Qden q)).

(** [MainWindow.update_stats]; [now] is the reading of [time.monotonic()].
    The CPU bar, fed from [psutil], is left out. *)
Definition update_stats (self : Dashboard) (checked : Z) (speed : Q) (now : Q)
    : Dashboard :=
  let total := dash_total_checked self + checked in
  {| dash_total_checked := total;
     dash_total_found := dash_total_found self;
     dash_start_time := dash_start_time self;
     results_file := results_file self;
     dash_log := dash_log self;
     lbl_checked := total; lbl_found := dash_total_found self;
     lbl_speed := speed; lbl_time := int_of_Q (now - dash_start_time self)%Q;
     generation_table := generation_table self |}.

(** [MainWindow.handle_error] *)
Definition handle_error (self : Dashboard) (worker : Z) (e : exn) (crashed : bool)
    : Dashboard :=
  {| dash_total_checked := dash_total_checked self;
     dash_total_found := dash_total_found self;
     dash_start_time := dash_start_time self;
     results_file := results_file self;
     dash_log := dash_log self ++ [dash_error worker e crashed];
     lbl_checked := lbl_checked self; lbl_found := lbl_found self;
     lbl_speed := lbl_speed self; lbl_time := lbl_time self;
     generation_table := generation_table self |}.

(** [addresses.items()] for a dict built by [generate]: its keys were
    inserted in the order of [DERIVATION_PATHS], which is the order a
    Python dict iterates in. *)
Definition dict_items (addresses : gmap string (option string))
    : list (string * option string) :=
  omap (fun item : string * (bip_class * bip_coin) =>
          (fun v => (item.1, v)) <$> addresses !! item.1) DERIVATION_PATHS.

(** ["\n".join(lines)] *)
Definition join_lines (lines : list string) : string :=
  match lines with
  | [] => ""
  | x :: rest => foldl (fun acc y => acc +:+ nl +:+ y) x rest
  end.

(** ["\n".join([f"{k}: {v}" for k, v in addresses.items() if v])] *)
Definition addresses_text (addresses : gmap string (option string)) : string :=
  join_lines
    (omap (fun kv : string * option string =>
             match kv.2 with
             | Some v => if bool_decide (v = "") then None
                         else Some (kv.1 +:+ ": " +:+ v)
             | None => None
             end) (dict_items addresses)).

(** [GenerationTable.add_generation] *)
Definition add_generation (rows : list table_row) (time mnemonic : string)
    (addresses : gmap string (option string)) : list table_row :=
  let rows1 := rows ++ [ {| row_time := time; row_mnemonic := mnemonic;
                            row_addresses := addresses_text addresses |} ] in
  if Z.of_nat (length rows1) >? DISPLAY_HISTORY then drop 1 rows1 else rows1.

(** [MainWindow.update_generation_display] *)
Definition update_generation_display (self : Dashboard) (mnemonic : string)
    (addresses : gmap string (option string)) (time : string) : Dashboard :=
  {| dash_total_checked := dash_total_checked self;
     dash_total_found := dash_total_found self;
     dash_start_time := dash_start_time self;
     results_file := results_file self;
     dash_log := dash_log self;
     lbl_checked := lbl_checked self; lbl_found := lbl_found self;
     lbl_speed := lbl_speed self; lbl_time := lbl_time self;
     generation_table := add_generation (generation_table self) time mnemonic addresses |}.

(** A signal as it reaches the window, with what the slot finds outside
    the program when it runs. *)
Record delivery : Type := mk_delivery {
  dl_event : event;
  dl_writable : bool;    (* RESULTS_FILE can be opened for appending *)
  dl_now : Q             (* time.monotonic() *)
}.

(** The slot each signal is connected to in [start_scan]. *)
Definition deliver (self : Dashboard) (d : delivery) : Dashboard :=
  match dl_event d with
  | found_signal worker mnemonic matches timestamp =>
      handle_found self worker mnemonic matches timestamp (dl_writable d)
  | generation_signal _ mnemonic addresses time =>
      update_generation_display self mnemonic addresses time
  | progress_signal _ checked _ speed => update_stats self checked speed (dl_now d)
  | error_signal_error worker e => handle_error self worker e false
  | error_signal_crashed worker e => handle_error self worker e true
  end.

Definition deliver_all (self : Dashboard) (ds : list delivery) : Dashboard :=
  foldl deliver self ds.

(** The sum of a list of integers. *)
Definition sum_Z (l : list Z) : Z := foldr Z.add 0 l.

(** The rows the generation signals of a list of signals produce. *)
Definition generation_rows (evs : list event) : list table_row :=
  omap (fun ev => match ev with
                  | generation_signal _ mnemonic addresses time =>
                      Some {| row_time := time; row_mnemonic := mnemonic;
                              row_addresses := addresses_text addresses |}
                  | _ => None
                  end) evs.

(** The line of the addresses column for one address type. *)
Definition address_line (dv : bip_class -> bip_coin -> bytes -> result string)
    (seed : bytes) (item : string * (bip_class * bip_coin)) : option string :=
  match dv item.2.1 item.2.2 seed with
  | Ok a => if bool_decide (a = "") then None else Some (item.1 +:+ ": " +:+ a)
  | Raise _ => None
  end.

(** The window state [start_scan] sets up for the slots: counters at
    zero, the clock reading as start time. *)
Definition ex_dashboard : Dashboard :=
  {| dash_total_checked := 0; dash_total_found := 0; dash_start_time := 0%Q;
     results_file := []; dash_log := [];
     lbl_checked := 0; lbl_found := 0; lbl_speed := 0%Q; lbl_time := 0;
     generation_table := [] |}.

(** ** MainWindow: loading an address file *)

(** An exception that leaves a slot. *)
Inductive slot_error : Type :=
| SlotKeyError (key : string)     (* self.config.config[key] on a missing key *)
| SlotAttributeError              (* .append on a value that is not a list *)
| SlotError (e : exn).

(** The [log_message] calls of [load_address_file]. *)
Inductive loader_log : Type :=
| llog_loaded (n : Z)             (* "Successfully loaded {n:,} addresses", "success" *)
| llog_failed.                    (* "Failed to load address file", "error" *)

Record LoaderWindow : Type := mk_LoaderWindow {
  lw_db : AddressDatabase;               (* self.address_db *)
  lw_config : gmap string json;          (* self.config.config *)
  lw_config_file : config_file;          (* CONFIG_FILE on disk *)
  lw_status : option Z;                  (* "Loaded {n:,} addresses" in lbl_status *)
  lw_log : list loader_log;
  address_table : list string            (* the rows of self.address_table *)
}.

(** [AddressTable.load_addresses]: the rows are replaced by the given
    addresses, one per row. *)
Definition load_addresses (rows : list string) (addresses : list string) : list string :=
  addresses.

Section Loader.

(** [str(Path(path))] and [str(Path(path).parent)] *)
Variable path_str : string -> string.
Variable path_parent : string -> string.

(** [MainWindow.load_address_file].  [dialog_path] is what the file
    dialog returns, the empty string when it is cancelled; [written]
    tells whether [save_config] gets its file written.  The result is
    the exception that leaves the slot, if any, and the window as it is
    then. *)
Definition load_address_file (self : LoaderWindow) (dialog_path : string)
    (fs : filesystem) (t0 t1 : Q) (written : bool)
    : option slot_error * LoaderWindow :=
  if bool_decide (dialog_path = "") then (None, self)
  else
    let config1 := <["last_directory" := JStr (path_parent dialog_path)]>
                     (lw_config self) in
    let '(ok, db1) := load path_str (lw_db self) fs t0 t1 dialog_path in
    if ok then
      match config1 !! "address_files" with
      | None =>
          (Some (SlotKeyError "address_files"),
           {| lw_db := db1; lw_config := config1;
              lw_config_file := lw_config_file self;
              lw_status := lw_status self; lw_log := lw_log self;
              address_table := address_table self |})
      | Some (JArr files) =>
          let config2 := <["address_count" := JNum (count db1)]>
                           (<["address_files" := JArr (files ++ [JStr dialog_path])]>
                              config1) in
          let file2 := (save_config config2 (lw_config_file self) written).2 in
          let log2 := lw_log self ++ [llog_loaded (count db1)] in
          match get_sample_addresses db1 20 with
          | Ok sample =>
              (None,
               {| lw_db := db1; lw_config := config2; lw_config_file := file2;
                  lw_status := Some (count db1); lw_log := log2;
                  address_table := load_addresses (address_table self) sample |})
          | Raise e =>
              (Some (SlotError e),
               {| lw_db := db1; lw_config := config2; lw_config_file := file2;
                  lw_status := Some (count db1); lw_log := log2;
                  address_table := address_table self |})
          end
      | Some _ =>
          (Some SlotAttributeError,
           {| lw_db := db1; lw_config := config1;
              lw_config_file := lw_config_file self;
              lw_status := lw_status self; lw_log := lw_log self;
              address_table := address_table self |})
      end
    else
      (None,
       {| lw_db := db1; lw_config := config1;
          lw_config_file := lw_config_file self;
          lw_status := lw_status self;
          lw_log := lw_log self ++ [llog_failed];
          address_table := address_table self |}).

End Loader.

(** A window on a fresh database with the default config. *)
Definition ex_loader : LoaderWindow :=
  {| lw_db := run_loads ex_path_str AddressDatabase_init [];
     lw_config := default_config 8 "/home/user";
     lw_config_file := NoConfigFile;
     lw_status := None; lw_log := []; address_table := [] |}.

(** * Properties *)

(** ** The models of [bytes.strip], [readline] and UTF-8 decoding on examples *)

Example strip_example :
  strip (String.list_byte_of_string "  a b " ++ [x09; x0d; x0a; x0b; x0c])
  = String.list_byte_of_string "a b".
Proof. reflexivity. Qed.

Example readline_example :
  readline [x61; x0a; x62] = ([x61; x0a], [x62])
  /\ readline [x62] = ([x62], [])
  /\ readline [] = ([], []).
Proof. repeat split. Qed.

(** Accepted: U+00E9, U+20AC, U+1F600, U+10FFFF.  Rejected: a surrogate,
    a code point above U+10FFFF, overlong forms, a stray continuation
    byte, a truncated sequence. *)
Example utf8_valid_example :
  map utf8_valid [[xc3; xa9]; [xe2; x82; xac]; [xf0; x9f; x98; x80];
                  [xf4; x8f; xbf; xbf]]
  = [true; true; true; true]
  /\ map utf8_valid [[xed; xa0; x80]; [xf4; x90; x80; x80]; [xc0; x80];
                     [xe0; x80; x80]; [x80]; [xe2; x82]]
     = [false; false; false; false; false; false].
Proof. split; reflexivity. Qed.

(** Three lines with addresses, one blank line, one duplicate, mixed
    whitespace: two distinct addresses, three entries in file order. *)
Example load_example :
  let r := load ex_path_str AddressDatabase_init (ex_fs (Content ex_file_three))
                0%Q 1%Q "addresses.txt" in
  r.1 = true
  /\ address_list r.2 = ["1BoatSLRHtKNngkdXEeobR76b53LETtpyT";
                          "1A1zP1eP5QGefi2DMPTfTL5SLmv7DivfNa";
                          "1BoatSLRHtKNngkdXEeobR76b53LETtpyT"]
  /\ count r.2 = 2
  /\ contains r.2 "1A1zP1eP5QGefi2DMPTfTL5SLmv7DivfNa" = true
  /\ contains r.2 "" = false.
Proof. cbv zeta. repeat split; vm_compute; reflexivity. Qed.

(** Python gives [['a', 'c', 'e']] for [list('abcdefg')[::2][:3]] and
    [[]] for [list('abcdefg')[::-4][:-2]]. *)
Example get_sample_addresses_example :
  get_sample_addresses (ex_db_list ["a"; "b"; "c"; "d"; "e"; "f"; "g"]) 3
    = Ok ["a"; "c"; "e"]
  /\ get_sample_addresses (ex_db_list ["a"; "b"; "c"; "d"; "e"; "f"; "g"]) (-2)
     = Ok []
  /\ get_sample_addresses (ex_db_list ["a"; "b"; "c"]) 0 = Raise ZeroDivisionError
  /\ get_sample_addresses (ex_db_list []) 0 = Ok []
  /\ get_sample_addresses (ex_db_list []) (-1) = Raise ValueError.
Proof. repeat split. Qed.

(** ** Trimming and line reading *)

Lemma lstrip_all_space (l : bytes) :
  forallb is_space l = true -> lstrip l = [].
Proof.
  induction l as [|b r IH]; simpl; [reflexivity|].
  destruct (is_space b); simpl; [exact IH | discriminate].
Qed.

Lemma lstrip_snoc_space (l : bytes) (b : byte) :
  is_space b = true ->
  lstrip (l ++ [b]) = if forallb is_space l then [] else lstrip l ++ [b].
Proof.
  intros Hb. induction l as [|c r IH]; simpl.
  - rewrite Hb. reflexivity.
  - destruct (is_space c); simpl; [exact IH | reflexivity].
Qed.

Lemma rstrip_snoc_space (l : bytes) (b : byte) :
  is_space b = true -> rstrip (l ++ [b]) = rstrip l.
Proof.
  intros Hb. unfold rstrip. rewrite rev_app_distr. simpl. rewrite Hb. reflexivity.
Qed.

Lemma strip_snoc_lf (l : bytes) : strip (l ++ [x0a]) = strip l.
Proof.
  unfold strip. rewrite lstrip_snoc_space by reflexivity.
  destruct (forallb is_space l) eqn:Hall.
  - rewrite lstrip_all_space by exact Hall. reflexivity.
  - apply rstrip_snoc_space. reflexivity.
Qed.

Lemma readline_rest_le (mm : bytes) :
  (length (readline mm).2 <= length mm)%nat.
Proof.
  induction mm as [|b r IH]; simpl; [lia|].
  destruct (Byte.eqb b x0a); simpl; [lia|].
  destruct (readline r) as [line rest]; simpl in *; lia.
Qed.

Lemma readline_rest_lt (b : byte) (r : bytes) :
  (length (readline (b :: r)).2 < length (b :: r))%nat.
Proof.
  simpl. destruct (Byte.eqb b x0a); simpl; [lia|].
  pose proof (readline_rest_le r).
  destruct (readline r) as [line rest]; simpl in *; lia.
Qed.

Lemma readline_cons (b : byte) (r : bytes) :
  readline (b :: r) =
  if Byte.eqb b x0a then ([b], r) else (b :: (readline r).1, (readline r).2).
Proof.
  simpl. destruct (Byte.eqb b x0a); [reflexivity|].
  destruct (readline r); reflexivity.
Qed.

(** One [readline()] on a non-empty map returns the first line of the
    file, with its line feed if it has one, and leaves the other lines. *)
Lemma readline_file_lines (b : byte) (r : bytes) :
  exists l : bytes,
    file_lines (b :: r) = l :: file_lines (readline (b :: r)).2
    /\ ((readline (b :: r)).1 = l ++ [x0a] \/ (readline (b :: r)).1 = l)
    /\ (readline (b :: r)).1 <> [].
Proof.
  revert b. induction r as [|c r IH]; intros b; rewrite readline_cons;
    cbn [file_lines]; destruct (Byte.eqb b x0a) eqn:Hb.
  - apply Byte.byte_dec_bl in Hb. subst b. exists []. simpl. auto.
  - exists [b]. simpl. auto.
  - apply Byte.byte_dec_bl in Hb. subst b. exists []. simpl. auto.
  - destruct (IH c) as (l & Hl & Hline & _).
    change (if Byte.eqb c x0a then [] :: file_lines r
            else match file_lines r with
                 | [] => [[c]]
                 | l0 :: ls => (c :: l0) :: ls
                 end) with (file_lines (c :: r)).
    rewrite Hl. exists (b :: l). cbn [fst snd].
    split; [reflexivity|]. split; [|discriminate].
    destruct Hline as [-> | ->]; auto.
Qed.

Lemma string_of_list_byte_nil (l : bytes) :
  String.string_of_list_byte l = "" <-> l = [].
Proof.
  split; [|intros ->; reflexivity].
  intros H. apply (f_equal String.list_byte_of_string) in H.
  rewrite String.list_byte_of_string_of_list_byte in H. exact H.
Qed.

Lemma string_of_list_byte_inj (l1 l2 : bytes) :
  String.string_of_list_byte l1 = String.string_of_list_byte l2 -> l1 = l2.
Proof.
  intros H. apply (f_equal String.list_byte_of_string) in H.
  rewrite !String.list_byte_of_string_of_list_byte in H. exact H.
Qed.

(** ** The read loop of [load] *)

Lemma read_loop_step (mm : bytes) (st : read_state) :
  read_loop mm st =
  match readline mm with
  | ([], _) => Ok st
  | (b :: line, rest) =>
      match process_line (b :: line) st with
      | Raise e => Raise e
      | Ok st' => read_loop rest st'
      end
  end.
Proof.
  rewrite read_loop_equation_1. unfold inspect.
  assert (H : forall (p : bytes * bytes) (e : readline mm = p),
             read_loop_unfold_clause_1 mm (exist _ p e) st =
             match p with
             | ([], _) => Ok st
             | (b :: line, rest) =>
                 match process_line (b :: line) st with
                 | Raise e => Raise e
                 | Ok st' => read_loop rest st'
                 end
             end).
  { intros [[|b line] rest] e; simpl; [reflexivity|].
    destruct (process_line (b :: line) st); reflexivity. }
  apply H.
Qed.

Lemma file_addresses_cons (l : bytes) (ls : list bytes) :
  map String.string_of_list_byte
      (filter (fun l : bytes => l <> []) (map strip (l :: ls)))
  = line_addresses l
    ++ map String.string_of_list_byte
         (filter (fun l : bytes => l <> []) (map strip ls)).
Proof.
  unfold line_addresses. cbn [map]. rewrite !filter_cons, filter_nil.
  destruct (decide (strip l <> [])); reflexivity.
Qed.

Lemma process_line_spec (line : bytes) (st : read_state) :
  batch_inv st ->
  match process_line line st with
  | Ok st' =>
      utf8_valid (strip line) = true
      /\ batch_inv st'
      /\ all_list st' = all_list st ++ line_addresses line
      /\ all_set st' = all_set st ∪ list_to_set (line_addresses line)
  | Raise e => e = UnicodeDecodeError /\ utf8_valid (strip line) = false
  end.
Proof.
  intros Hinv. unfold process_line, decode_utf8, line_addresses.
  destruct (utf8_valid (strip line)) eqn:Hv; [|auto].
  rewrite filter_cons, filter_nil.
  case_bool_decide as Hempty.
  - apply string_of_list_byte_nil in Hempty.
    destruct (decide (strip line <> [])) as [Hne|_]; [congruence|].
    cbn. rewrite app_nil_r, union_empty_r_L. auto.
  - destruct (decide (strip line <> [])) as [_|Hnil].
    2:{ exfalso. apply Hempty. apply string_of_list_byte_nil.
        destruct (strip line); [reflexivity|]. exfalso. apply Hnil. discriminate. }
    unfold batch_inv, all_list, all_set in *. cbn [map].
    destruct (_ >=? _); cbn [flush_batch temp_set temp_list batch batch_list].
    + rewrite app_nil_r, app_assoc, union_empty_r_L, union_assoc_L.
      cbn. rewrite union_empty_r_L. auto.
    + rewrite app_assoc, Hinv, list_to_set_app_L, union_assoc_L.
      cbn. rewrite union_empty_r_L. auto.
Qed.

(** The loop ends normally exactly on decodable files, and then it has
    collected the file's addresses, in order and as a set. *)
Lemma read_loop_spec (mm : bytes) :
  forall st : read_state,
    batch_inv st ->
    match read_loop mm st with
    | Ok st' =>
        decodable mm
        /\ batch_inv st'
        /\ all_list st' = all_list st ++ file_addresses mm
        /\ all_set st' = all_set st ∪ list_to_set (file_addresses mm)
    | Raise e => e = UnicodeDecodeError /\ ~ decodable mm
    end.
Proof.
  remember (length mm) as n eqn:Hn. revert mm Hn.
  induction n as [n IH] using lt_wf_ind. intros mm Hn st Hinv.
  rewrite read_loop_step.
  destruct mm as [|b r].
  - simpl. unfold decodable, file_addresses, nonblank_trimmed_lines. simpl.
    rewrite app_nil_r, union_empty_r_L. repeat split; [constructor|exact Hinv].
  - destruct (readline_file_lines b r) as (l & Hl & Hline & Hne).
    pose proof (readline_rest_lt b r) as Hlt.
    destruct (readline (b :: r)) as [line rest].
    cbn [fst snd] in Hl, Hline, Hne, Hlt. simpl in Hn, Hlt.
    destruct line as [|c line]; [congruence|].
    assert (Hstrip : strip (c :: line) = strip l).
    { destruct Hline as [->| ->]; [apply strip_snoc_lf|reflexivity]. }
    assert (Haddr : line_addresses (c :: line) = line_addresses l).
    { unfold line_addresses. rewrite Hstrip. reflexivity. }
    pose proof (process_line_spec (c :: line) st Hinv) as Hp.
    destruct (process_line (c :: line) st) as [st1|e].
    + destruct Hp as (Hv & Hinv1 & Hlist1 & Hset1).
      specialize (IH (length rest) ltac:(lia) rest eq_refl st1 Hinv1).
      destruct (read_loop rest st1) as [st2|e].
      * destruct IH as (Hdec & Hinv2 & Hlist2 & Hset2).
        unfold decodable, file_addresses, nonblank_trimmed_lines in *.
        rewrite Hl, file_addresses_cons, <- Haddr.
        repeat split.
        -- constructor; [rewrite <- Hstrip; exact Hv | exact Hdec].
        -- exact Hinv2.
        -- rewrite Hlist2, Hlist1, app_assoc. reflexivity.
        -- rewrite Hset2, Hset1, list_to_set_app_L, union_assoc_L. reflexivity.
      * destruct IH as (-> & Hnd). split; [reflexivity|].
        unfold decodable in *. rewrite Hl. intros Hall.
        apply Hnd. inversion Hall; assumption.
    + destruct Hp as (-> & Hv). split; [reflexivity|].
      unfold decodable. rewrite Hl. intros Hall.
      inversion Hall as [|? ? Hhd _]; subst. rewrite <- Hstrip in Hhd. congruence.
Qed.

(** ** [read_file] and [load] *)

Lemma read_file_spec (body : file_body) :
  match read_file body with
  | Ok (tset, tlist) =>
      exists data, body = Content data /\ data <> [] /\ decodable data
                   /\ tset = list_to_set (file_addresses data)
                   /\ tlist = file_addresses data
  | Raise _ =>
      body = Unreadable \/ body = Content []
      \/ exists data, body = Content data /\ ~ decodable data
  end.
Proof.
  destruct body as [|[|b r]]; cbn [read_file]; auto.
  assert (Hinit : batch_inv read_state_init) by reflexivity.
  pose proof (read_loop_spec (b :: r) read_state_init Hinit) as H.
  destruct (read_loop (b :: r) read_state_init) as [st|e].
  - destruct H as (Hdec & Hinv & Hlist & Hset).
    unfold all_list, all_set, batch_inv in *.
    remember (file_addresses (b :: r)) as fa eqn:Hfa.
    cbn in Hlist, Hset. rewrite !union_empty_l_L in Hset. subst fa.
    case_bool_decide as Hb.
    + exists (b :: r). rewrite Hb in Hinv, Hset.
      assert (Hbl : batch_list st = []).
      { destruct (batch_list st) as [|x l]; [reflexivity|].
        exfalso. symmetry in Hinv. apply (not_elem_of_empty (C:=gset string) x).
        rewrite <- Hinv. apply elem_of_list_to_set. left. }
      rewrite Hbl, app_nil_r in Hlist. rewrite union_empty_r_L in Hset.
      repeat split; [discriminate | exact Hdec | exact Hset | exact Hlist].
    + exists (b :: r).
      repeat split; [discriminate | exact Hdec | exact Hset | exact Hlist].
  - destruct H as (_ & Hnd). right. right. exists (b :: r). auto.
Qed.

(** A load that reads the file and succeeds publishes exactly the file's
    addresses: as a set, as an ordered list, and as a count. *)
Lemma load_reads_spec (path_str : string -> string) (self : AddressDatabase)
    (fs : filesystem) (t0 t1 : Q) (p : string) (data : bytes) :
  reads_file path_str self fs p ->
  file_data path_str fs p = Some data ->
  (load path_str self fs t0 t1 p).1 = true ->
  addresses (load path_str self fs t0 t1 p).2 = list_to_set (file_addresses data)
  /\ address_list (load path_str self fs t0 t1 p).2 = file_addresses data
  /\ _count (load path_str self fs t0 t1 p).2
     = Z.of_nat (size (list_to_set (file_addresses data) : gset string)).
Proof.
  unfold reads_file, file_data, load.
  destruct (fs (path_str p)) as [[m body]|]; [|contradiction].
  cbn [st_mtime st_body]. intros Hmiss Hdata.
  destruct body as [|d]; [discriminate|]. injection Hdata as ->.
  assert (Hc : bool_decide (file_path self = path_str p) && (_last_modified self =? m)
               = false).
  { apply andb_false_iff. destruct Hmiss as [H|H].
    - left. apply bool_decide_eq_false. exact H.
    - right. apply Z.eqb_neq. exact H. }
  rewrite Hc.
  pose proof (read_file_spec (Content data)) as H.
  destruct (read_file (Content data)) as [[tset tlist]|e]; cbn; [|discriminate].
  destruct H as (d & [= <-] & _ & _ & -> & ->). auto.
Qed.

(** A failing load never touches the published snapshot: the address
    set, the ordered list, the count and the load time stay as they were. *)
Lemma load_failure_keeps_snapshot (path_str : string -> string)
    (self : AddressDatabase) (fs : filesystem) (t0 t1 : Q) (p : string) :
  (load path_str self fs t0 t1 p).1 = false ->
  addresses (load path_str self fs t0 t1 p).2 = addresses self
  /\ address_list (load path_str self fs t0 t1 p).2 = address_list self
  /\ _count (load path_str self fs t0 t1 p).2 = _count self
  /\ load_time (load path_str self fs t0 t1 p).2 = load_time self.
Proof.
  unfold load. destruct (fs (path_str p)) as [st|]; [|auto].
  destruct (bool_decide _ && _); [discriminate|].
  destruct (read_file (st_body st)) as [[tset tlist]|e]; [discriminate|auto].
Qed.

(** A load that gets past the modification check and then fails has
    already recorded the new path and modification time. *)
Lemma load_failure_after_check (path_str : string -> string)
    (self : AddressDatabase) (fs : filesystem) (t0 t1 : Q) (p : string) :
  reads_file path_str self fs p ->
  (load path_str self fs t0 t1 p).1 = false ->
  file_path (load path_str self fs t0 t1 p).2 = path_str p
  /\ Some (_last_modified (load path_str self fs t0 t1 p).2) = file_mtime path_str fs p.
Proof.
  unfold reads_file, file_mtime, load.
  destruct (fs (path_str p)) as [st|]; [|contradiction].
  intros Hmiss.
  assert (Hc : bool_decide (file_path self = path_str p)
               && (_last_modified self =? st_mtime st) = false).
  { apply andb_false_iff. destruct Hmiss as [H|H].
    - left. apply bool_decide_eq_false. exact H.
    - right. apply Z.eqb_neq. exact H. }
  rewrite Hc.
  destruct (read_file (st_body st)) as [[tset tlist]|e]; [discriminate|auto].
Qed.



(** C4. A load that fails after the modification check is not a no-op on
    the database.  On a fresh database, loading an existing file that
    cannot be opened returns [false] but leaves the path and the
    modification time of that file recorded; the same call repeated once
    the file can be opened then takes the "already loaded" exit: it
    returns [true] and nothing of the file is in the index. *)
Theorem load_failure_records_path_and_mtime :
  let r := load ex_path_str AddressDatabase_init (ex_fs Unreadable) 0%Q 1%Q
                "addresses.txt" in
  r.1 = false
  /\ file_path r.2 = "addresses.txt" /\ file_path AddressDatabase_init = ""
  /\ _last_modified r.2 = 5 /\ _last_modified AddressDatabase_init = 0
  /\ r.2 <> AddressDatabase_init
  /\ load ex_path_str r.2 (ex_fs (Content ex_file_one)) 2%Q 3%Q "addresses.txt"
     = (true, r.2)
  /\ contains r.2 "1BoatSLRHtKNngkdXEeobR76b53LETtpyT" = false
  /\ count r.2 = 0.
Proof.
  cbv zeta.
  assert (Hr : load ex_path_str AddressDatabase_init (ex_fs Unreadable) 0%Q 1%Q
                    "addresses.txt"
               = (false, {| addresses := ∅; _count := 0; load_time := 0%Q;
                            file_path := "addresses.txt"; _last_modified := 5;
                            address_list := [] |})) by reflexivity.
  rewrite Hr. cbn [fst snd file_path _last_modified].
  repeat split; try reflexivity.
  intros H. apply (f_equal _last_modified) in H. discriminate H.
Qed.

(** C5, counterexample.  [addresses.txt] was loaded when it held
    [ex_file_one]; it now holds [ex_file_two] under the same modification
    time.  The load succeeds, the address is a trimmed line of the file,
    and [contains] answers [false]. *)
Lemma load_success_contains_stale :
  let r := load ex_path_str ex_db_one (ex_fs (Content ex_file_two)) 2%Q 3%Q
                "addresses.txt" in
  r.1 = true
  /\ file_data ex_path_str (ex_fs (Content ex_file_two)) "addresses.txt"
     = Some ex_file_two
  /\ "1A1zP1eP5QGefi2DMPTfTL5SLmv7DivfNa" ∈ file_addresses ex_file_two
  /\ contains r.2 "1A1zP1eP5QGefi2DMPTfTL5SLmv7DivfNa" = false.
Proof.
  cbv zeta. split; [vm_compute; reflexivity|]. split; [reflexivity|].
  split; [|vm_compute; reflexivity].
  assert (H : file_addresses ex_file_two = ["1A1zP1eP5QGefi2DMPTfTL5SLmv7DivfNa"])
    by (vm_compute; reflexivity).
  rewrite H. left.
Qed.

(** C5, as it holds of the code.  After a successful load that reads the file (the path
    or the modification time differs from the recorded one), [contains a]
    is true exactly when [a] is a line of the file trimmed of surrounding
    ASCII whitespace and not blank. *)
Theorem load_contains_iff_trimmed_line (path_str : string -> string)
    (self : AddressDatabase) (fs : filesystem) (t0 t1 : Q) (p : string)
    (data : bytes) (a : string) :
  reads_file path_str self fs p ->
  file_data path_str fs p = Some data ->
  (load path_str self fs t0 t1 p).1 = true ->
  contains (load path_str self fs t0 t1 p).2 a = true
  <-> exists line : bytes,
        line ∈ file_lines data /\ strip line <> []
        /\ a = String.string_of_list_byte (strip line).
Proof.
  intros Hreads Hdata Hok.
  destruct (load_reads_spec path_str self fs t0 t1 p data Hreads Hdata Hok)
    as (Hset & _ & _).
  unfold contains. rewrite Hset, bool_decide_eq_true, elem_of_list_to_set.
  unfold file_addresses, nonblank_trimmed_lines.
  rewrite list_elem_of_fmap. split.
  - intros (t & -> & Ht). apply list_elem_of_filter in Ht as [Hne Ht].
    apply list_elem_of_fmap in Ht as (line & -> & Hline). eauto.
  - intros (line & Hline & Hne & ->). exists (strip line). split; [reflexivity|].
    apply list_elem_of_filter. split; [exact Hne|].
    apply list_elem_of_fmap. eauto.
Qed.

Lemma load_contains_iff_trimmed_line_witness :
  reads_file ex_path_str AddressDatabase_init (ex_fs (Content ex_file_three))
             "addresses.txt"
  /\ file_data ex_path_str (ex_fs (Content ex_file_three)) "addresses.txt"
     = Some ex_file_three
  /\ (load ex_path_str AddressDatabase_init (ex_fs (Content ex_file_three)) 0%Q 1%Q
           "addresses.txt").1 = true
  /\ (contains (load ex_path_str AddressDatabase_init (ex_fs (Content ex_file_three))
                     0%Q 1%Q "addresses.txt").2
               "1A1zP1eP5QGefi2DMPTfTL5SLmv7DivfNa" = true
      <-> exists line : bytes,
            line ∈ file_lines ex_file_three /\ strip line <> []
            /\ "1A1zP1eP5QGefi2DMPTfTL5SLmv7DivfNa"
               = String.string_of_list_byte (strip line)).
Proof.
  assert (Hreads : reads_file ex_path_str AddressDatabase_init
                     (ex_fs (Content ex_file_three)) "addresses.txt").
  { left. discriminate. }
  assert (Hok : (load ex_path_str AddressDatabase_init (ex_fs (Content ex_file_three))
                      0%Q 1%Q "addresses.txt").1 = true).
  { vm_compute. reflexivity. }
  split; [exact Hreads|]. split; [reflexivity|]. split; [exact Hok|].
  exact (load_contains_iff_trimmed_line ex_path_str AddressDatabase_init
           (ex_fs (Content ex_file_three)) 0%Q 1%Q "addresses.txt" ex_file_three
           "1A1zP1eP5QGefi2DMPTfTL5SLmv7DivfNa" Hreads eq_refl Hok).
Defined.

(** ** The count of a loaded index *)

Lemma remove_dups_fmap_inj {A B : Type} `{EqDecision A, EqDecision B}
    (f : A -> B) (l : list A) :
  (forall x y, f x = f y -> x = y) ->
  remove_dups (f <$> l) = f <$> remove_dups l.
Proof.
  intros Hinj. induction l as [|x l IH]; [reflexivity|].
  rewrite fmap_cons. cbn [remove_dups].
  destruct (decide_rel elem_of (f x) (f <$> l)) as [Hin|Hnin];
    destruct (decide_rel elem_of x l) as [Hin'|Hnin'].
  - exact IH.
  - exfalso. apply list_elem_of_fmap in Hin as (y & Hxy & Hy).
    apply Hinj in Hxy. subst y. contradiction.
  - exfalso. apply Hnin. apply list_elem_of_fmap. eauto.
  - rewrite fmap_cons. f_equal. exact IH.
Qed.

Lemma size_list_to_set_remove_dups (l : list string) :
  size (list_to_set l : gset string) = length (remove_dups l).
Proof.
  rewrite <- (size_list_to_set (C:=gset string) (remove_dups l))
    by apply NoDup_remove_dups.
  f_equal. apply set_eq. intros x.
  rewrite !elem_of_list_to_set, elem_of_remove_dups. reflexivity.
Qed.

(** C6, counterexample.  [addresses.txt] was loaded when it held one
    address; it now holds two distinct ones under the same modification
    time.  The load succeeds and the count is still 1. *)
Lemma load_success_count_stale :
  let r := load ex_path_str ex_db_one (ex_fs (Content ex_file_three)) 2%Q 3%Q
                "addresses.txt" in
  r.1 = true
  /\ ex_file_three <> []
  /\ file_data ex_path_str (ex_fs (Content ex_file_three)) "addresses.txt"
     = Some ex_file_three
  /\ length (remove_dups (nonblank_trimmed_lines ex_file_three)) = 2%nat
  /\ count r.2 = 1.
Proof.
  cbv zeta. split; [vm_compute; reflexivity|]. split; [discriminate|].
  split; [reflexivity|]. split; vm_compute; reflexivity.
Qed.

(** C6, as it holds of the code.  After a successful load that reads the file (the path
    or the modification time differs from the recorded one), the count is
    the number of distinct non-blank trimmed lines of the file. *)
Theorem load_count_distinct_lines (path_str : string -> string)
    (self : AddressDatabase) (fs : filesystem) (t0 t1 : Q) (p : string)
    (data : bytes) :
  reads_file path_str self fs p ->
  file_data path_str fs p = Some data ->
  (load path_str self fs t0 t1 p).1 = true ->
  count (load path_str self fs t0 t1 p).2
  = Z.of_nat (length (remove_dups (nonblank_trimmed_lines data))).
Proof.
  intros Hreads Hdata Hok.
  destruct (load_reads_spec path_str self fs t0 t1 p data Hreads Hdata Hok)
    as (_ & _ & Hcount).
  unfold count. rewrite Hcount, size_list_to_set_remove_dups.
  unfold file_addresses.
  rewrite (remove_dups_fmap_inj String.string_of_list_byte)
    by apply string_of_list_byte_inj.
  rewrite length_fmap. reflexivity.
Qed.

Lemma load_count_distinct_lines_witness :
  reads_file ex_path_str AddressDatabase_init (ex_fs (Content ex_file_three))
             "addresses.txt"
  /\ file_data ex_path_str (ex_fs (Content ex_file_three)) "addresses.txt"
     = Some ex_file_three
  /\ (load ex_path_str AddressDatabase_init (ex_fs (Content ex_file_three)) 0%Q 1%Q
           "addresses.txt").1 = true
  /\ count (load ex_path_str AddressDatabase_init (ex_fs (Content ex_file_three))
                 0%Q 1%Q "addresses.txt").2
     = Z.of_nat (length (remove_dups (nonblank_trimmed_lines ex_file_three))).
Proof.
  assert (Hreads : reads_file ex_path_str AddressDatabase_init
                     (ex_fs (Content ex_file_three)) "addresses.txt").
  { left. discriminate. }
  assert (Hok : (load ex_path_str AddressDatabase_init (ex_fs (Content ex_file_three))
                      0%Q 1%Q "addresses.txt").1 = true).
  { vm_compute. reflexivity. }
  split; [exact Hreads|]. split; [reflexivity|]. split; [exact Hok|].
  exact (load_count_distinct_lines ex_path_str AddressDatabase_init
           (ex_fs (Content ex_file_three)) 0%Q 1%Q "addresses.txt" ex_file_three
           Hreads eq_refl Hok).
Defined.

(** ** Sampling *)

Lemma slice_to_length {A : Type} (l : list A) (n : Z) :
  0 <= n -> Z.of_nat (length (slice_to l n)) <= n.
Proof.
  intros Hn. unfold slice_to.
  destruct (0 <=? n) eqn:H; [|apply Z.leb_gt in H; lia].
  rewrite length_take. lia.
Qed.

(** C10, counterexample.  On an index of three addresses the call
    with [count = -1] returns (the empty list) although [count] is below 1
    and the index is not empty. *)
Lemma get_sample_negative_count_returns :
  address_list (ex_db_list ["a"; "b"; "c"]) <> []
  /\ ~ (1 <= -1)
  /\ get_sample_addresses (ex_db_list ["a"; "b"; "c"]) (-1) = Ok [].
Proof.
  split; [discriminate|]. split; [lia|]. reflexivity.
Qed.

(** C10, as it holds of the code.  [get_sample_addresses count] raises in exactly two
    cases: [ZeroDivisionError] when [count = 0] on a non-empty index, and
    [ValueError] (a zero slice step) when [count < 0] on an empty index.
    Otherwise it returns; for [count >= 1] it returns at most [count]
    addresses, and the whole ordered list when the index holds at most
    [count] addresses. *)
Theorem get_sample_addresses_domain (self : AddressDatabase) (count : Z) :
  match get_sample_addresses self count with
  | Raise e =>
      (e = ZeroDivisionError /\ count = 0 /\ address_list self <> [])
      \/ (e = ValueError /\ count < 0 /\ address_list self = [])
  | Ok l =>
      ~ (count = 0 /\ address_list self <> [])
      /\ ~ (count < 0 /\ address_list self = [])
      /\ (1 <= count ->
          Z.of_nat (length l) <= count
          /\ (Z.of_nat (length (address_list self)) <= count -> l = address_list self))
  end.
Proof.
  unfold get_sample_addresses, floordiv, slice_step.
  destruct (Z.of_nat (length (address_list self)) <=? count) eqn:Hle.
  - apply Z.leb_le in Hle. repeat split.
    + intros [-> Hne]. destruct (address_list self); [congruence|simpl in Hle; lia].
    + intros [Hneg _]. lia.
    + lia.
  - apply Z.leb_gt in Hle.
    destruct (count =? 0) eqn:Hc.
    { apply Z.eqb_eq in Hc. subst count. left. repeat split.
      destruct (address_list self); [simpl in Hle; lia|discriminate]. }
    apply Z.eqb_neq in Hc.
    set (len := Z.of_nat (length (address_list self))) in *.
    destruct (len / count =? 0) eqn:Hs.
    { apply Z.eqb_eq in Hs. right. repeat split.
      - destruct (Z.lt_ge_cases count 0) as [|Hpos]; [assumption|].
        exfalso. assert (1 <= len / count); [|lia].
        apply Z.div_le_lower_bound; lia.
      - destruct (address_list self) as [|x l] eqn:Hl; [reflexivity|].
        exfalso. assert (Hlen : 0 < len) by (subst len; simpl; lia).
        destruct (Z.lt_ge_cases count 0) as [Hneg|Hpos].
        + pose proof (Z.mod_neg_bound len count Hneg).
          pose proof (Z.div_mod len count Hc). nia.
        + assert (1 <= len / count); [|lia].
          apply Z.div_le_lower_bound; lia. }
    apply Z.eqb_neq in Hs.
    assert (Hok : forall strided : list string,
               ~ (count = 0 /\ address_list self <> [])
               /\ ~ (count < 0 /\ address_list self = [])
               /\ (1 <= count ->
                   Z.of_nat (length (slice_to strided count)) <= count
                   /\ (len <= count -> slice_to strided count = address_list self))).
    { intros strided. repeat split.
      - intros [-> _]. congruence.
      - intros [Hneg Hnil]. apply Hs. subst len. rewrite Hnil. reflexivity.
      - apply slice_to_length. lia.
      - lia. }
    destruct (0 <? len / count); apply Hok.
Qed.

(** ** Derivation of the four address types *)

Section ScannerProperties.

Variable mg : Z -> bytes -> result string.
Variable sg : string -> result bytes.
Variable dv : bip_class -> bip_coin -> bytes -> result string.

Lemma derive_step_insert (seed : bytes) (m : gmap string (option string))
    (t : string) (cls : bip_class) (coin : bip_coin) :
  derive_step dv seed m (t, (cls, coin))
  = <[t := address_or_none (dv cls coin seed)]> m.
Proof. unfold derive_step. destruct (dv cls coin seed); reflexivity. Qed.

Lemma derive_all_inserts (seed : bytes) :
  derive_all dv seed
  = <["P2TR" := address_or_none (dv Bip86 Bip86Coins_BITCOIN seed)]>
      (<["P2WPKH" := address_or_none (dv Bip84 Bip84Coins_BITCOIN seed)]>
         (<["P2SH-P2WPKH" := address_or_none (dv Bip49 Bip49Coins_BITCOIN seed)]>
            (<["P2PKH" := address_or_none (dv Bip44 Bip44Coins_BITCOIN seed)]> ∅))).
Proof.
  unfold derive_all, DERIVATION_PATHS. cbn [foldl].
  rewrite !derive_step_insert. reflexivity.
Qed.

(** Every address type has an entry, and it depends on that type's
    derivation alone. *)
Lemma derive_all_lookup (seed : bytes) (t : string) (cls : bip_class)
    (coin : bip_coin) :
  (t, (cls, coin)) ∈ DERIVATION_PATHS ->
  derive_all dv seed !! t = Some (address_or_none (dv cls coin seed)).
Proof.
  rewrite derive_all_inserts. unfold DERIVATION_PATHS.
  rewrite !elem_of_cons, elem_of_nil.
  intros [H|[H|[H|[H|[]]]]]; injection H as -> -> ->; by simplify_map_eq.
Qed.

Lemma derive_all_size (seed : bytes) : size (derive_all dv seed) = 4%nat.
Proof.
  rewrite derive_all_inserts.
  rewrite !map_size_insert_None by (by simplify_map_eq).
  rewrite map_size_empty. reflexivity.
Qed.

(** ** [generate] *)

Lemma generate_success (self : WalletGenerator) (inp : gen_input)
    (mnemonic : string) (addresses : gmap string (option string)) (wl : string) :
  generate_body mg sg dv (mode self) inp = Ok (mnemonic, addresses, wl) ->
  (generate mg sg dv self inp).1 = Ok (mnemonic, addresses)
  /\ mode (generate mg sg dv self inp).2 = mode self
  /\ generation_pair <$> _last_generation (generate mg sg dv self inp).2
     = Some (mnemonic, addresses).
Proof. unfold generate. intros ->. auto. Qed.

Lemma generate_failure (self : WalletGenerator) (inp : gen_input) (e : exn) :
  generate_body mg sg dv (mode self) inp = Raise e ->
  generate mg sg dv self inp
  = (match _last_generation self with
     | Some lg => Ok (gen_mnemonic lg, gen_addresses lg)
     | None => Raise RuntimeError
     end, self).
Proof. unfold generate. intros ->. destruct (_last_generation self); reflexivity. Qed.

Lemma run_generates_last (g : WalletGenerator) (pre : list gen_input) :
  mode (run_generates mg sg dv g pre) = mode g
  /\ generation_pair <$> _last_generation (run_generates mg sg dv g pre)
     = match last_success mg sg dv (mode g) pre with
       | Some ma => Some ma
       | None => generation_pair <$> _last_generation g
       end.
Proof.
  induction pre as [|inp pre [IHm IHl]] using rev_ind; [split; reflexivity|].
  unfold run_generates, last_success in *.
  rewrite foldl_snoc, omap_app. cbn [omap list_omap].
  set (g1 := foldl _ g pre) in *.
  unfold fresh_generation at 2.
  destruct (generate_body mg sg dv (mode g) inp) as [[[m a] wl]|e] eqn:Hb.
  - rewrite <- IHm in Hb.
    destruct (generate_success g1 inp m a wl Hb) as (_ & Hm & Hl).
    rewrite last_snoc. split; [congruence|exact Hl].
  - rewrite <- IHm in Hb. rewrite (generate_failure g1 inp e Hb).
    cbn [snd]. rewrite app_nil_r. auto.
Qed.

(** C8. When the mnemonic and the seed are produced, [generate] returns
    normally with one entry per address type: the derived address, or
    [None] where that type's derivation raised.  An entry depends on its
    own derivation only, so a failing type leaves the other three as
    derived; the worker then processes the candidate without any error
    signal and keeps running. *)
Theorem derivation_failure_is_per_scheme (self : ScannerWorker) (inp : iter_input)
    (strength : Z) (mnemonic : string) (seed : bytes) :
  strengths (word_length_of (mode (generator self)) (gen_in inp)) = Ok strength ->
  mg strength (entropy (gen_in inp)) = Ok mnemonic ->
  sg mnemonic = Ok seed ->
  (generate mg sg dv (generator self) (gen_in inp)).1
    = Ok (mnemonic, derive_all dv seed)
  /\ (forall t cls coin,
        (t, (cls, coin)) ∈ DERIVATION_PATHS ->
        derive_all dv seed !! t = Some (address_or_none (dv cls coin seed)))
  /\ _running (_process_generation mg sg dv self inp).1 = _running self
  /\ Forall (fun ev => is_error_signal ev = false)
            (_process_generation mg sg dv self inp).2
  /\ generation_signal (id self) mnemonic (derive_all dv seed) (now_time inp)
       ∈ (_process_generation mg sg dv self inp).2.
Proof.
  intros Hs Hm Hseed.
  assert (Hb : generate_body mg sg dv (mode (generator self)) (gen_in inp)
               = Ok (mnemonic, derive_all dv seed,
                     word_length_of (mode (generator self)) (gen_in inp))).
  { unfold generate_body. cbv zeta. rewrite Hs, Hm, Hseed. reflexivity. }
  destruct (generate_success _ _ _ _ _ Hb) as (Hg & _ & _).
  split; [exact Hg|]. split; [intros t cls coin; apply derive_all_lookup|].
  unfold _process_generation.
  destruct (generate mg sg dv (generator self) (gen_in inp)) as [r g'].
  cbn [fst] in Hg. subst r. cbn [fst snd _running].
  split; [reflexivity|]. split.
  - repeat case_bool_decide; destruct (_ =? 0); repeat constructor.
  - rewrite !elem_of_app. right. left. left.
Qed.

(** C9. A call of [generate] whose [try] block raises returns the
    mnemonic and addresses of the most recent successful generation when
    there is one, leaving the generator as it was, and raises
    [RuntimeError] when no earlier call succeeded. *)
Theorem generate_failure_replays_last (m : string) (pre : list gen_input)
    (inp : gen_input) (e : exn) :
  generate_body mg sg dv m inp = Raise e ->
  generate mg sg dv (run_generates mg sg dv (WalletGenerator_init m) pre) inp
  = (match last_success mg sg dv m pre with
     | Some (mnemonic, addresses) => Ok (mnemonic, addresses)
     | None => Raise RuntimeError
     end,
     run_generates mg sg dv (WalletGenerator_init m) pre).
Proof.
  intros Hb.
  destruct (run_generates_last (WalletGenerator_init m) pre) as [Hm Hl].
  cbn [mode WalletGenerator_init _last_generation] in Hm, Hl.
  rewrite <- Hm in Hb. rewrite (generate_failure _ inp e Hb). f_equal.
  destruct (_last_generation _) as [lg|];
    destruct (last_success mg sg dv m pre) as [[mn ad]|];
    cbn in Hl; try discriminate; [|reflexivity].
  injection Hl as <- <-. reflexivity.
Qed.

(** ** The worker loop *)

(** An iteration in which [generate] raises changes nothing but what
    [generate] itself left, and emits one error signal. *)
Lemma process_generation_failure (self : ScannerWorker) (inp : iter_input) (e : exn) :
  (generate mg sg dv (generator self) (gen_in inp)).1 = Raise e ->
  _process_generation mg sg dv self inp = (self, [error_signal_error (id self) e]).
Proof.
  unfold _process_generation, generate.
  destruct (generate_body mg sg dv (mode (generator self)) (gen_in inp))
    as [[[m a] wl]|e']; [discriminate|].
  destruct (_last_generation (generator self)); [discriminate|].
  cbn [fst]. intros [= ->]. destruct self; reflexivity.
Qed.

(** The loop body never clears [_running]. *)
Lemma process_generation_running (self : ScannerWorker) (inp : iter_input) :
  _running (_process_generation mg sg dv self inp).1 = _running self.
Proof.
  unfold _process_generation.
  destruct (generate mg sg dv (generator self) (gen_in inp)) as [[[m a]|e] g'];
    reflexivity.
Qed.

(** Without a stop request the loop is still running after any number
    of iterations, whatever happened in them. *)
Lemma run_loop_running_without_stop (inputs : list iter_input) :
  forall self : ScannerWorker,
    _running self = true ->
    Forall (fun inp => stop_requested inp = false) inputs ->
    _running (run_loop mg sg dv self inputs).1 = true.
Proof.
  induction inputs as [|inp rest IH]; intros self Hrun Hall; [exact Hrun|].
  inversion Hall as [|? ? Hstop Hrest]; subst.
  cbn [run_loop]. rewrite Hrun, Hstop.
  pose proof (process_generation_running self inp) as Hp.
  destruct (_process_generation mg sg dv self inp) as [self1 evs]. cbn [fst] in Hp.
  specialize (IH self1 ltac:(congruence) Hrest).
  destruct (run_loop mg sg dv self1 rest) as [self3 evs']. exact IH.
Qed.

(** A successful iteration adds the number of entries of the address
    dict to [_checked], and emits a progress signal exactly when the new
    value is a multiple of 100. *)
Lemma process_generation_checked (self : ScannerWorker) (inp : iter_input)
    (mnemonic : string) (addresses : gmap string (option string)) :
  (generate mg sg dv (generator self) (gen_in inp)).1 = Ok (mnemonic, addresses) ->
  _checked (_process_generation mg sg dv self inp).1
    = _checked self + Z.of_nat (size addresses)
  /\ (progress_signals (_process_generation mg sg dv self inp).2 <> []
      <-> (_checked self + Z.of_nat (size addresses)) mod 100 = 0).
Proof.
  unfold _process_generation.
  destruct (generate mg sg dv (generator self) (gen_in inp)) as [r g'].
  cbn [fst]. intros ->. cbn [fst snd _checked]. split; [reflexivity|].
  unfold progress_signals.
  set (found := find_matches _ _ _).
  destruct (_ =? 0) eqn:Hmod;
    [apply Z.eqb_eq in Hmod | apply Z.eqb_neq in Hmod];
    destruct (bool_decide (found = []));
    rewrite ?filter_app, ?filter_cons, ?filter_nil;
    repeat case_decide; try discriminate; cbn [app];
    split; intros Hp;
    solve [congruence | discriminate
           | match goal with H : is_progress_signal _ <> true |- _ =>
               exfalso; apply H; reflexivity end].
Qed.

(** Every candidate whose generation succeeds adds four to [_checked],
    one per entry of the address dict, whether or not the entry holds an
    address. *)
Lemma fresh_candidate_counts_four (self : ScannerWorker) (inp : iter_input)
    (mnemonic : string) (addresses : gmap string (option string)) (wl : string) :
  generate_body mg sg dv (mode (generator self)) (gen_in inp)
    = Ok (mnemonic, addresses, wl) ->
  _checked (_process_generation mg sg dv self inp).1 = _checked self + 4.
Proof.
  intros Hb.
  destruct (generate_success _ _ _ _ _ Hb) as (Hg & _ & _).
  destruct (process_generation_checked self inp _ _ Hg) as [-> _].
  assert (Ha : addresses = derive_all dv
                 match sg mnemonic with Ok seed => seed | Raise _ => [] end).
  { unfold generate_body in Hb. cbv zeta in Hb.
    destruct (strengths _); [|discriminate].
    destruct (mg _ _) as [m|]; [|discriminate].
    destruct (sg m) as [seed|] eqn:Hs; [|discriminate].
    injection Hb as -> <- _. rewrite Hs. reflexivity. }
  rewrite Ha, derive_all_size. reflexivity.
Qed.

Lemma process_generation_mode (self : ScannerWorker) (inp : iter_input) :
  mode (generator (_process_generation mg sg dv self inp).1) = mode (generator self).
Proof.
  unfold _process_generation, generate.
  destruct (generate_body mg sg dv (mode (generator self)) (gen_in inp))
    as [[[m a] wl]|e]; [reflexivity|].
  destruct (_last_generation (generator self)); reflexivity.
Qed.

(** While every generation succeeds and no stop is requested, [_checked]
    after [n] candidates is four times [n] above its starting value: a
    fresh worker reaches 100, and its first progress signal, at the 25th
    candidate. *)
Lemma run_loop_checked_all_success (inputs : list iter_input) :
  forall self : ScannerWorker,
    _running self = true ->
    Forall (fun inp =>
              stop_requested inp = false
              /\ fresh_generation mg sg dv (mode (generator self)) (gen_in inp) <> None)
           inputs ->
    _checked (run_loop mg sg dv self inputs).1
    = _checked self + 4 * Z.of_nat (length inputs).
Proof.
  induction inputs as [|inp rest IH]; intros self Hrun Hall.
  - cbn. lia.
  - inversion Hall as [|? ? [Hstop Hfresh] Hrest]; subst.
    cbn [run_loop]. rewrite Hrun, Hstop.
    unfold fresh_generation in Hfresh.
    destruct (generate_body mg sg dv (mode (generator self)) (gen_in inp))
      as [[[m a] wl]|e] eqn:Hb; [|congruence].
    pose proof (fresh_candidate_counts_four self inp m a wl Hb) as Hc.
    pose proof (process_generation_running self inp) as Hr.
    pose proof (process_generation_mode self inp) as Hm.
    destruct (_process_generation mg sg dv self inp) as [self1 evs].
    cbn [fst] in Hc, Hr, Hm.
    assert (Hrest' : Forall (fun inp =>
                stop_requested inp = false
                /\ fresh_generation mg sg dv (mode (generator self1)) (gen_in inp)
                   <> None) rest) by (rewrite Hm; exact Hrest).
    specialize (IH self1 ltac:(congruence) Hrest').
    destruct (run_loop mg sg dv self1 rest) as [self3 evs'].
    cbn [fst length] in *. lia.
Qed.

(** C7, as it holds of the code.  Consecutive failing iterations are not counted: when
    [generate] raises in every one of any number of iterations and no
    stop is requested, the worker emits one ordinary error signal per
    iteration and is left exactly as it was, still running. *)
Theorem failing_iterations_do_not_stop_worker (self : ScannerWorker)
    (inputs : list iter_input) :
  _running self = true ->
  Forall (fun inp =>
            stop_requested inp = false
            /\ (generate mg sg dv (generator self) (gen_in inp)).1
               = Raise RuntimeError) inputs ->
  run_loop mg sg dv self inputs
  = (self, map (fun _ => error_signal_error (id self) RuntimeError) inputs)
  /\ _running (run_loop mg sg dv self inputs).1 = true.
Proof.
  intros Hrun Hall.
  assert (Heq : run_loop mg sg dv self inputs
                = (self, map (fun _ => error_signal_error (id self) RuntimeError)
                             inputs)).
  { induction Hall as [|inp rest [Hstop Hfail] _ IH]; [reflexivity|].
    cbn [run_loop map]. rewrite Hrun, (process_generation_failure _ _ _ Hfail).
    rewrite Hstop, IH. reflexivity. }
  rewrite Heq. split; [reflexivity|exact Hrun].
Qed.

End ScannerProperties.

Lemma derivation_failure_is_per_scheme_witness :
  (strengths (word_length_of (mode (generator (ex_worker "12"))) (gen_in ex_iter_input))
     = Ok 128
   /\ ex_mnemonic_generate 128 (entropy (gen_in ex_iter_input))
      = Ok "legal winner thank year wave sausage worth useful legal winner thank yellow"
   /\ ex_seed "legal winner thank year wave sausage worth useful legal winner thank yellow"
      = Ok [x2a])
  /\ derive_all ex_derive_no_taproot [x2a] !! "P2TR" = Some None
  /\ derive_all ex_derive_no_taproot [x2a] !! "P2PKH"
     = Some (Some "1PbdWpp4kx8Zt2JXoBCPJDhQf7gHt1tnsL")
  /\ Forall (fun ev => is_error_signal ev = false)
            (_process_generation ex_mnemonic_generate ex_seed ex_derive_no_taproot
               (ex_worker "12") ex_iter_input).2.
Proof.
  split; [repeat split; reflexivity|].
  destruct (derivation_failure_is_per_scheme ex_mnemonic_generate ex_seed
              ex_derive_no_taproot (ex_worker "12") ex_iter_input 128
              "legal winner thank year wave sausage worth useful legal winner thank yellow"
              [x2a] eq_refl eq_refl eq_refl) as (_ & Hl & _ & Hev & _).
  split; [|split; [|exact Hev]].
  - apply (Hl "P2TR" Bip86 Bip86Coins_BITCOIN). unfold DERIVATION_PATHS.
    do 3 right. left.
  - apply (Hl "P2PKH" Bip44 Bip44Coins_BITCOIN). left.
Defined.

Lemma generate_failure_replays_last_witness :
  generate_body ex_mnemonic_generate ex_seed ex_derive "random" ex_gen_input_24
    = Raise LibraryError
  /\ generate ex_mnemonic_generate ex_seed ex_derive
       (run_generates ex_mnemonic_generate ex_seed ex_derive
          (WalletGenerator_init "random") [ex_gen_input])
       ex_gen_input_24
     = (match last_success ex_mnemonic_generate ex_seed ex_derive "random" [ex_gen_input]
        with
        | Some (mnemonic, addresses) => Ok (mnemonic, addresses)
        | None => Raise RuntimeError
        end,
        run_generates ex_mnemonic_generate ex_seed ex_derive
          (WalletGenerator_init "random") [ex_gen_input]).
Proof.
  split; [reflexivity|].
  apply (generate_failure_replays_last ex_mnemonic_generate ex_seed ex_derive
           "random" [ex_gen_input] ex_gen_input_24 LibraryError).
  reflexivity.
Defined.

(** The replayed candidate of the example: the second call returns the
    first call's mnemonic. *)
Example generate_replay_example :
  (generate ex_mnemonic_generate ex_seed ex_derive
     (run_generates ex_mnemonic_generate ex_seed ex_derive
        (WalletGenerator_init "random") [ex_gen_input])
     ex_gen_input_24).1
  = Ok ("legal winner thank year wave sausage worth useful legal winner thank yellow",
        derive_all ex_derive [x2a])
  /\ (generate ex_mnemonic_generate ex_seed ex_derive
        (WalletGenerator_init "random") ex_gen_input_24).1
     = Raise RuntimeError.
Proof. split; reflexivity. Qed.

(** C7, counterexample.  A worker whose mnemonic library raises in every
    call goes through four iterations: four ordinary error signals, no
    other signal, and the worker is as it was on entry, still running. *)
Lemma worker_runs_on_after_three_failures :
  run ex_mnemonic_unavailable ex_seed ex_derive (ex_worker "12") 0%Q
      (replicate 4 ex_iter_input)
  = (run_enter (ex_worker "12") 0%Q,
     [error_signal_error 1 RuntimeError; error_signal_error 1 RuntimeError;
      error_signal_error 1 RuntimeError; error_signal_error 1 RuntimeError])
  /\ _running (run_enter (ex_worker "12") 0%Q) = true.
Proof. split; reflexivity. Qed.

Lemma failing_iterations_do_not_stop_worker_witness :
  (_running (run_enter (ex_worker "12") 0%Q) = true
   /\ Forall (fun inp =>
                stop_requested inp = false
                /\ (generate ex_mnemonic_unavailable ex_seed ex_derive
                      (generator (run_enter (ex_worker "12") 0%Q)) (gen_in inp)).1
                   = Raise RuntimeError) (replicate 5 ex_iter_input))
  /\ _running (run_loop ex_mnemonic_unavailable ex_seed ex_derive
                 (run_enter (ex_worker "12") 0%Q) (replicate 5 ex_iter_input)).1
     = true.
Proof.
  assert (H : Forall (fun inp =>
                stop_requested inp = false
                /\ (generate ex_mnemonic_unavailable ex_seed ex_derive
                      (generator (run_enter (ex_worker "12") 0%Q)) (gen_in inp)).1
                   = Raise RuntimeError) (replicate 5 ex_iter_input)).
  { apply Forall_replicate. split; reflexivity. }
  split; [split; [reflexivity|exact H]|].
  apply (failing_iterations_do_not_stop_worker ex_mnemonic_unavailable ex_seed
           ex_derive (run_enter (ex_worker "12") 0%Q) (replicate 5 ex_iter_input)
           eq_refl H).
Defined.

(** C2.  A worker for which every generation succeeds emits no progress
    signal during its first 24 candidates and one at the 25th, whose
    [checked] is 100: [_checked] grows by the four entries of the address
    dict per candidate, and the reported speed, 100 over 10 seconds, is
    four times the 25 candidates processed in those 10 seconds. *)
Theorem progress_signal_at_25_candidates :
  progress_signals (run ex_mnemonic_generate ex_seed ex_derive (ex_worker "12") 0%Q
                        (replicate 24 ex_iter_input)).2 = []
  /\ progress_signals (run ex_mnemonic_generate ex_seed ex_derive (ex_worker "12") 0%Q
                           (replicate 25 ex_iter_input)).2
     = [progress_signal 1 100 0 (100 # 10)]
  /\ length (generation_signals
               (run ex_mnemonic_generate ex_seed ex_derive (ex_worker "12") 0%Q
                    (replicate 25 ex_iter_input)).2) = 25%nat
  /\ _checked (run ex_mnemonic_generate ex_seed ex_derive (ex_worker "12") 0%Q
                   (replicate 25 ex_iter_input)).1 = 100.
Proof. repeat split; vm_compute; reflexivity. Qed.

(** ** Starting a scan *)

Lemma stop_scan_workers (self : MainWindow) : workers (stop_scan self) = [].
Proof. unfold stop_scan. destruct (workers self) eqn:H; [exact H|reflexivity]. Qed.

Lemma stop_scan_address_db (self : MainWindow) :
  address_db (stop_scan self) = address_db self.
Proof. unfold stop_scan. destruct (workers self); reflexivity. Qed.

(** With no address type selected a worker never reports a match. *)
Lemma find_matches_no_types (db : AddressDatabase)
    (addresses : gmap string (option string)) :
  find_matches db addresses [] = [].
Proof. reflexivity. Qed.

(** C1, counterexample.  With one address loaded, two threads selected
    and no address type checked, [start_scan] stores the empty list of
    active types, spawns workers 1 and 2 and logs the start of the scan;
    it logs no error. *)
Lemma start_scan_without_types_spawns :
  map fst (filter (fun tc => snd tc = true) (checks ex_window_no_types)) = []
  /\ active_address_types (win_config (start_scan ex_window_no_types)) = []
  /\ map id (workers (start_scan ex_window_no_types)) = [1; 2]
  /\ log (start_scan ex_window_no_types) = [log_started 2].
Proof. repeat split; vm_compute; reflexivity. Qed.

(** C1, as it holds of the code.  [start_scan] refuses to start only when the address
    count is zero: it then logs "No addresses loaded" and leaves the list
    of workers as it was.  Otherwise it stores the checked address types,
    whether or not there are any, as the active ones and spawns
    [thread_limit] workers numbered from 1, all over the same database
    and the same config. *)
Theorem start_scan_spawns_when_loaded (self : MainWindow) :
  (count (address_db self) = 0 ->
   workers (start_scan self) = workers self
   /\ log (start_scan self) = log self ++ [log_no_addresses])
  /\ (count (address_db self) <> 0 ->
      active_address_types (win_config (start_scan self))
        = map fst (filter (fun tc => snd tc = true) (checks self))
      /\ thread_limit (win_config (start_scan self)) = spn_threads self
      /\ map id (workers (start_scan self))
         = map (fun i : nat => Z.of_nat i + 1) (seq 0 (Z.to_nat (spn_threads self)))
      /\ Forall (fun w => db w = address_db self
                          /\ config w = win_config (start_scan self))
                (workers (start_scan self))).
Proof.
  unfold start_scan. split; intros Hc.
  - rewrite Hc. cbn. auto.
  - apply Z.eqb_neq in Hc. rewrite Hc.
    cbn [win_config workers active_address_types thread_limit].
    rewrite stop_scan_workers, stop_scan_address_db. cbn [app address_db].
    unfold spawn_workers. rewrite map_map. cbn [ScannerWorker_init id].
    repeat split.
    apply Forall_forall. intros w Hw.
    apply list_elem_of_fmap in Hw as (i & -> & _). split; reflexivity.
Qed.

(** * Further properties *)

(** ** The address database *)

Lemma file_addresses_nonblank (data : bytes) : "" ∉ file_addresses data.
Proof.
  unfold file_addresses, nonblank_trimmed_lines. intros H.
  apply list_elem_of_fmap in H as (l & Hl & Hin).
  apply list_elem_of_filter in Hin as [Hne _].
  symmetry in Hl. apply string_of_list_byte_nil in Hl. contradiction.
Qed.

Lemma load_consistent (path_str : string -> string) (self : AddressDatabase)
    (fs : filesystem) (t0 t1 : Q) (p : string) :
  db_consistent self -> db_consistent (load path_str self fs t0 t1 p).2.
Proof.
  intros Hself. unfold load.
  destruct (fs (path_str p)) as [st|]; [|exact Hself].
  destruct (bool_decide _ && _); [exact Hself|].
  pose proof (read_file_spec (st_body st)) as H.
  destruct (read_file (st_body st)) as [[tset tlist]|e]; [|exact Hself].
  destruct H as (data & _ & _ & _ & -> & ->).
  repeat split. apply file_addresses_nonblank.
Qed.

Lemma run_loads_consistent (path_str : string -> string) (calls : list load_call) :
  forall db, db_consistent db -> db_consistent (run_loads path_str db calls).
Proof.
  induction calls as [|c calls IH]; intros db Hdb; [exact Hdb|].
  apply IH. apply load_consistent. exact Hdb.
Qed.

Lemma db_init_consistent : db_consistent AddressDatabase_init.
Proof.
  repeat split. cbn. apply not_elem_of_nil.
Qed.



(** X2. Whatever files have been loaded into a fresh database, and
    whether the loads succeeded or not, the index stays consistent:
    [contains] holds exactly of the entries of the ordered list, [count]
    is the number of distinct entries of that list, and the empty string
    is never a member. *)
Theorem loaded_index_is_consistent (path_str : string -> string)
    (calls : list load_call) (a : string) :
  (contains (run_loads path_str AddressDatabase_init calls) a = true
   <-> a ∈ address_list (run_loads path_str AddressDatabase_init calls))
  /\ count (run_loads path_str AddressDatabase_init calls)
     = Z.of_nat (length (remove_dups
                           (address_list (run_loads path_str AddressDatabase_init calls))))
  /\ contains (run_loads path_str AddressDatabase_init calls) "" = false.
Proof.
  destruct (run_loads_consistent path_str calls _ db_init_consistent)
    as (Hset & Hcount & Hblank).
  unfold contains, count. rewrite Hcount, Hset.
  rewrite bool_decide_eq_true, bool_decide_eq_false, !elem_of_list_to_set.
  rewrite size_list_to_set_remove_dups. auto.
Qed.

(** X3. A successful load that reads the file publishes, as the ordered
    list, the non-blank trimmed lines of the file in file order, with
    their duplicates, and records the duration of the load. *)
Theorem load_keeps_file_order (path_str : string -> string)
    (self : AddressDatabase) (fs : filesystem) (t0 t1 : Q) (p : string)
    (data : bytes) :
  reads_file path_str self fs p ->
  file_data path_str fs p = Some data ->
  (load path_str self fs t0 t1 p).1 = true ->
  address_list (load path_str self fs t0 t1 p).2
    = map String.string_of_list_byte (nonblank_trimmed_lines data)
  /\ length (address_list (load path_str self fs t0 t1 p).2)
     = length (nonblank_trimmed_lines data)
  /\ load_time (load path_str self fs t0 t1 p).2 = (t1 - t0)%Q.
Proof.
  intros Hreads Hdata Hok.
  destruct (load_reads_spec path_str self fs t0 t1 p data Hreads Hdata Hok)
    as (_ & Hlist & _).
  rewrite Hlist. unfold file_addresses. rewrite length_map.
  split; [reflexivity|]. split; [reflexivity|].
  revert Hreads Hdata Hok. unfold reads_file, file_data, load.
  destruct (fs (path_str p)) as [[m body]|]; [|contradiction].
  cbn [st_mtime st_body]. intros Hmiss Hd.
  destruct body as [|d]; [discriminate|].
  assert (Hc : bool_decide (file_path self = path_str p) && (_last_modified self =? m)
               = false).
  { apply andb_false_iff. destruct Hmiss as [H|H].
    - left. apply bool_decide_eq_false. exact H.
    - right. apply Z.eqb_neq. exact H. }
  rewrite Hc.
  destruct (read_file (Content d)) as [[tset tlist]|e]; [reflexivity|discriminate].
Qed.

Lemma load_keeps_file_order_witness :
  (reads_file ex_path_str AddressDatabase_init (ex_fs (Content ex_file_three))
              "addresses.txt"
   /\ file_data ex_path_str (ex_fs (Content ex_file_three)) "addresses.txt"
      = Some ex_file_three
   /\ (load ex_path_str AddressDatabase_init (ex_fs (Content ex_file_three)) 0%Q 1%Q
            "addresses.txt").1 = true)
  /\ length (address_list
               (load ex_path_str AddressDatabase_init (ex_fs (Content ex_file_three))
                     0%Q 1%Q "addresses.txt").2)
     = length (nonblank_trimmed_lines ex_file_three).
Proof.
  assert (Hreads : reads_file ex_path_str AddressDatabase_init
                     (ex_fs (Content ex_file_three)) "addresses.txt").
  { left. discriminate. }
  assert (Hok : (load ex_path_str AddressDatabase_init (ex_fs (Content ex_file_three))
                      0%Q 1%Q "addresses.txt").1 = true).
  { vm_compute. reflexivity. }
  split; [split; [exact Hreads|split; [reflexivity|exact Hok]]|].
  apply (load_keeps_file_order ex_path_str AddressDatabase_init
           (ex_fs (Content ex_file_three)) 0%Q 1%Q "addresses.txt" ex_file_three
           Hreads eq_refl Hok).
Defined.

(** ** Sampling *)

Lemma stride_from_lookup {A : Type} (l : list A) :
  forall (skip gap i : nat),
    stride_from skip gap l !! i = l !! (skip + i * S gap)%nat.
Proof.
  induction l as [|x r IH]; intros skip gap i; [reflexivity|].
  destruct skip as [|k]; cbn [stride_from].
  - destruct i as [|i]; [reflexivity|].
    cbn [lookup list_lookup]. rewrite IH.
    replace (0 + S i * S gap)%nat with (S (gap + i * S gap)) by lia. reflexivity.
  - rewrite IH. reflexivity.
Qed.

Lemma stride_from_sublist {A : Type} (l : list A) :
  forall skip gap : nat, stride_from skip gap l `sublist_of` l.
Proof.
  induction l as [|x r IH]; intros skip gap; [constructor|].
  destruct skip as [|k]; cbn [stride_from].
  - apply sublist_skip, IH.
  - apply sublist_cons, IH.
Qed.

Lemma slice_step_elem_of {A : Type} (l strided : list A) (step : Z) (x : A) :
  slice_step l step = Ok strided -> x ∈ strided -> x ∈ l.
Proof.
  unfold slice_step. destruct (step =? 0); [discriminate|].
  destruct (0 <? step); intros [= <-] Hx.
  - eapply elem_of_sublist; [exact Hx|apply stride_from_sublist].
  - apply list_elem_of_In, in_rev, list_elem_of_In.
    eapply elem_of_sublist; [exact Hx|apply stride_from_sublist].
Qed.

Lemma slice_to_sublist {A : Type} (l : list A) (n : Z) : slice_to l n `sublist_of` l.
Proof. unfold slice_to. destruct (0 <=? n); apply sublist_take. Qed.

Lemma loaded_index_members (path_str : string -> string) (calls : list load_call)
    (a : string) :
  a ∈ address_list (run_loads path_str AddressDatabase_init calls) ->
  contains (run_loads path_str AddressDatabase_init calls) a = true.
Proof.
  destruct (run_loads_consistent path_str calls _ db_init_consistent) as (Hset & _).
  unfold contains. rewrite Hset, bool_decide_eq_true, elem_of_list_to_set. auto.
Qed.

(** X4. For [1 <= count < len] the sample holds exactly [count]
    addresses: entry [i] is entry [i * (len // count)] of the ordered
    list, so the first entry of the list is always the first sample. *)
Theorem get_sample_addresses_stride (self : AddressDatabase) (count : Z) :
  1 <= count ->
  count < Z.of_nat (length (address_list self)) ->
  exists l : list string,
    get_sample_addresses self count = Ok l
    /\ length l = Z.to_nat count
    /\ forall i : nat,
         (i < Z.to_nat count)%nat ->
         l !! i = address_list self
                    !! (i * Z.to_nat (Z.of_nat (length (address_list self)) / count))%nat.
Proof.
  intros Hpos Hlt. unfold get_sample_addresses, floordiv, slice_step, slice_to.
  set (len := Z.of_nat (length (address_list self))) in *.
  assert (Hstep : 1 <= len / count) by (apply Z.div_le_lower_bound; lia).
  destruct (len <=? count) eqn:H1; [apply Z.leb_le in H1; lia|].
  destruct (count =? 0) eqn:H2; [apply Z.eqb_eq in H2; lia|].
  destruct (len / count =? 0) eqn:H3; [apply Z.eqb_eq in H3; lia|].
  destruct (0 <? len / count) eqn:H4; [|apply Z.ltb_ge in H4; lia].
  destruct (0 <=? count) eqn:H5; [|apply Z.leb_gt in H5; lia].
  eexists. split; [reflexivity|].
  assert (Hgap : S (Z.to_nat (len / count - 1)) = Z.to_nat (len / count)) by lia.
  assert (Hlook : forall i : nat,
             stride_from 0 (Z.to_nat (len / count - 1)) (address_list self) !! i
             = address_list self !! (i * Z.to_nat (len / count))%nat).
  { intros i. rewrite stride_from_lookup, Hgap. reflexivity. }
  split.
  - rewrite length_take. apply Nat.min_l.
    destruct (Z.to_nat count) as [|n] eqn:Hn; [lia|].
    apply Nat.le_succ_l, lookup_lt_is_Some. rewrite Hlook.
    apply lookup_lt_is_Some.
    assert (count * (len / count) <= len) by (apply Z.mul_div_le; lia).
    assert (Z.of_nat (n * Z.to_nat (len / count)) = (count - 1) * (len / count)).
    { rewrite Nat2Z.inj_mul, Z2Nat.id by lia. f_equal. lia. }
    apply Nat2Z.inj_lt. fold len. nia.
  - intros i Hi. rewrite lookup_take_lt by exact Hi. apply Hlook.
Qed.

Lemma get_sample_addresses_stride_witness :
  (1 <= 3
   /\ 3 < Z.of_nat (length (address_list
                              (ex_db_list ["a"; "b"; "c"; "d"; "e"; "f"; "g"]))))
  /\ exists l : list string,
       get_sample_addresses (ex_db_list ["a"; "b"; "c"; "d"; "e"; "f"; "g"]) 3 = Ok l
       /\ length l = 3%nat.
Proof.
  assert (H1 : 1 <= 3) by lia.
  assert (H2 : 3 < Z.of_nat (length (address_list
                              (ex_db_list ["a"; "b"; "c"; "d"; "e"; "f"; "g"]))))
    by (cbn; lia).
  split; [split; [exact H1|exact H2]|].
  destruct (get_sample_addresses_stride
              (ex_db_list ["a"; "b"; "c"; "d"; "e"; "f"; "g"]) 3 H1 H2)
    as (l & Hl & Hlen & _).
  exists l. split; [exact Hl|exact Hlen].
Defined.

(** X5. Every sampled address is a member of the index, for every
    database reached from a fresh one by loads and for every [count],
    negative ones included; for [count >= 1] the sample also keeps the
    order of the ordered list. *)
Theorem get_sample_addresses_members (path_str : string -> string)
    (calls : list load_call) (count : Z) (l : list string) :
  get_sample_addresses (run_loads path_str AddressDatabase_init calls) count = Ok l ->
  Forall (fun a => contains (run_loads path_str AddressDatabase_init calls) a = true) l
  /\ (1 <= count ->
      l `sublist_of` address_list (run_loads path_str AddressDatabase_init calls)).
Proof.
  set (db := run_loads path_str AddressDatabase_init calls).
  pose proof (loaded_index_members path_str calls) as Hmem. fold db in Hmem.
  unfold get_sample_addresses, floordiv.
  destruct (_ <=? count) eqn:Hle.
  - intros [= <-]. split; [|reflexivity].
    apply Forall_forall. intros a Ha. apply Hmem. exact Ha.
  - destruct (count =? 0); [discriminate|].
    destruct (slice_step (address_list db) _) as [strided|e] eqn:Hs; [|discriminate].
    intros [= <-]. split.
    + apply Forall_forall. intros a Ha. apply Hmem.
      eapply slice_step_elem_of; [exact Hs|].
      eapply elem_of_sublist; [exact Ha|apply slice_to_sublist].
    + intros Hpos. etrans; [apply slice_to_sublist|].
      revert Hs. unfold slice_step. destruct (_ =? 0); [discriminate|].
      apply Z.leb_gt in Hle.
      assert (Hstep : 1 <= Z.of_nat (length (address_list db)) / count)
        by (apply Z.div_le_lower_bound; lia).
      destruct (0 <? _) eqn:H4; [|apply Z.ltb_ge in H4; lia].
      intros [= <-]. apply stride_from_sublist.
Qed.

Lemma get_sample_addresses_members_witness :
  get_sample_addresses
    (run_loads ex_path_str AddressDatabase_init
       [mk_load_call (ex_fs (Content ex_file_three)) 0%Q 1%Q "addresses.txt"]) 2
  = Ok ["1BoatSLRHtKNngkdXEeobR76b53LETtpyT"; "1A1zP1eP5QGefi2DMPTfTL5SLmv7DivfNa"]
  /\ Forall (fun a => contains
                        (run_loads ex_path_str AddressDatabase_init
                           [mk_load_call (ex_fs (Content ex_file_three)) 0%Q 1%Q
                                         "addresses.txt"]) a = true)
            ["1BoatSLRHtKNngkdXEeobR76b53LETtpyT"; "1A1zP1eP5QGefi2DMPTfTL5SLmv7DivfNa"].
Proof.
  assert (H : get_sample_addresses
                (run_loads ex_path_str AddressDatabase_init
                   [mk_load_call (ex_fs (Content ex_file_three)) 0%Q 1%Q
                                 "addresses.txt"]) 2
              = Ok ["1BoatSLRHtKNngkdXEeobR76b53LETtpyT";
                    "1A1zP1eP5QGefi2DMPTfTL5SLmv7DivfNa"]).
  { vm_compute. reflexivity. }
  split; [exact H|].
  apply (get_sample_addresses_members ex_path_str _ 2 _ H).
Defined.

(** ** The worker: matches, counters and stopping *)

Section WorkerProperties.

Variable mg : Z -> bytes -> result string.
Variable sg : string -> result bytes.
Variable dv : bip_class -> bip_coin -> bytes -> result string.

Lemma find_matches_spec (db : AddressDatabase)
    (addresses : gmap string (option string)) (types : list string)
    (t addr : string) :
  (t, addr) ∈ find_matches db addresses types <-> is_match db addresses types t addr.
Proof.
  unfold find_matches, is_match. rewrite list_elem_of_omap. split.
  - intros (t' & Ht' & H).
    destruct (addresses !! t') as [[a|]|] eqn:Hl; try discriminate.
    destruct (negb _ && _) eqn:Hc; [|discriminate].
    injection H as <- <-. apply andb_true_iff in Hc as [Hne Hin].
    apply negb_true_iff, bool_decide_eq_false in Hne. auto.
  - intros (Ht & Hl & Hne & Hin). exists t. split; [exact Ht|].
    rewrite Hl, Hin, bool_decide_eq_false_2 by exact Hne. reflexivity.
Qed.

(** The signals of an iteration whose generation returned. *)
Lemma process_generation_events (self : ScannerWorker) (inp : iter_input)
    (mnemonic : string) (addresses : gmap string (option string)) :
  (generate mg sg dv (generator self) (gen_in inp)).1 = Ok (mnemonic, addresses) ->
  let found := find_matches (db self) addresses (active_address_types (config self)) in
  let checked := _checked self + Z.of_nat (size addresses) in
  (_process_generation mg sg dv self inp).2
  = (if bool_decide (found = []) then []
     else [found_signal (id self) mnemonic found (now_iso inp)])
    ++ [generation_signal (id self) mnemonic addresses (now_time inp)]
    ++ (if checked mod 100 =? 0
        then [progress_signal (id self) checked
                (if bool_decide (found = []) then _found self
                 else _found self + Z.of_nat (length found))
                (inject_Z checked / max_tenth (monotonic inp - _start_time self))%Q]
        else [])
  /\ _checked (_process_generation mg sg dv self inp).1 = checked
  /\ _found (_process_generation mg sg dv self inp).1
     = _found self + Z.of_nat (length found).
Proof.
  unfold _process_generation.
  destruct (generate mg sg dv (generator self) (gen_in inp)) as [r g'].
  cbn [fst]. intros ->. cbv zeta. cbn [fst snd _checked _found].
  split; [reflexivity|]. split; [reflexivity|].
  case_bool_decide as Hf; [rewrite Hf; cbn; lia|reflexivity].
Qed.

(** X6. In an iteration whose generation returned, a found signal is
    emitted exactly when some active address type has a derived,
    non-empty address that is in the index; there is at most one such
    signal, it carries the worker's id and the candidate's mnemonic, and
    it lists exactly those (type, address) pairs: never a type that is
    not active, never a failed derivation, never an address outside the
    index. *)
Theorem found_signal_lists_exact_matches (self : ScannerWorker) (inp : iter_input)
    (mnemonic : string) (addresses : gmap string (option string)) :
  (generate mg sg dv (generator self) (gen_in inp)).1 = Ok (mnemonic, addresses) ->
  (found_signals (_process_generation mg sg dv self inp).2 <> []
   <-> exists t addr,
         is_match (db self) addresses (active_address_types (config self)) t addr)
  /\ (length (found_signals (_process_generation mg sg dv self inp).2) <= 1)%nat
  /\ Forall (fun ev =>
               exists matches,
                 ev = found_signal (id self) mnemonic matches (now_iso inp)
                 /\ forall t addr,
                      (t, addr) ∈ matches
                      <-> is_match (db self) addresses
                                   (active_address_types (config self)) t addr)
            (found_signals (_process_generation mg sg dv self inp).2).
Proof.
  intros Hg. destruct (process_generation_events self inp _ _ Hg) as (-> & _ & _).
  unfold found_signals. rewrite !filter_app.
  set (found := find_matches _ _ _).
  assert (Hgen : filter (fun ev => is_found_signal ev = true)
                   [generation_signal (id self) mnemonic addresses (now_time inp)] = []).
  { rewrite filter_cons, filter_nil. case_decide; [discriminate|reflexivity]. }
  assert (Hprog : forall (c : bool) (w f s : Z) (q : Q),
             filter (fun ev => is_found_signal ev = true)
                    (if c then [progress_signal w f s q] else []) = []).
  { intros [] w f s q; [|reflexivity].
    rewrite filter_cons, filter_nil. case_decide; [discriminate|reflexivity]. }
  rewrite Hgen, Hprog, !app_nil_r.
  case_bool_decide as Hf.
  - rewrite filter_nil. cbn [length]. split; [|split; [lia|constructor]]. split.
    + intros H. congruence.
    + intros (t & addr & Hm). apply find_matches_spec in Hm.
      fold found in Hm. rewrite Hf in Hm. apply elem_of_nil in Hm. contradiction.
  - rewrite filter_cons, filter_nil. case_decide as Hd; [|exfalso; apply Hd; reflexivity].
    cbn [length]. split; [|split; [lia|]].
    + split; [|discriminate]. intros _.
      destruct found as [|[t addr] rest] eqn:Hfound; [congruence|].
      exists t, addr. apply find_matches_spec. fold found. rewrite Hfound. left.
    + constructor; [|constructor]. exists found. split; [reflexivity|].
      intros t addr. apply find_matches_spec.
Qed.

Lemma generation_signals_app (l1 l2 : list event) :
  generation_signals (l1 ++ l2) = generation_signals l1 ++ generation_signals l2.
Proof. unfold generation_signals. apply filter_app. Qed.

Lemma progress_checked_app (l1 l2 : list event) :
  progress_checked (l1 ++ l2) = progress_checked l1 ++ progress_checked l2.
Proof. unfold progress_checked. apply omap_app. Qed.

Lemma matches_reported_app (l1 l2 : list event) :
  matches_reported (l1 ++ l2) = matches_reported l1 + matches_reported l2.
Proof.
  induction l1 as [|ev l1 IH]; [reflexivity|].
  destruct ev; cbn [app matches_reported]; lia.
Qed.

(** What one iteration adds to [_found] is what its found signal lists. *)
Lemma process_generation_found (self : ScannerWorker) (inp : iter_input) :
  _found (_process_generation mg sg dv self inp).1
  = _found self + matches_reported (_process_generation mg sg dv self inp).2.
Proof.
  destruct ((generate mg sg dv (generator self) (gen_in inp)).1) as [[m a]|e] eqn:Hg.
  - destruct (process_generation_events self inp m a Hg) as (-> & _ & ->).
    set (found := find_matches _ _ _). rewrite !matches_reported_app.
    case_bool_decide as Hf; destruct (_ =? 0); cbn; rewrite ?Hf; cbn; lia.
  - rewrite (process_generation_failure mg sg dv self inp e Hg). cbn. lia.
Qed.

Lemma run_loop_stopped (self : ScannerWorker) (inputs : list iter_input) :
  _running self = false -> run_loop mg sg dv self inputs = (self, []).
Proof. intros H. destruct inputs; cbn [run_loop]; [|rewrite H]; reflexivity. Qed.

Lemma run_loop_cons (self : ScannerWorker) (inp : iter_input)
    (rest : list iter_input) :
  _running self = true ->
  run_loop mg sg dv self (inp :: rest)
  = (let step := _process_generation mg sg dv self inp in
     let self2 := if stop_requested inp then set_running step.1 false else step.1 in
     ((run_loop mg sg dv self2 rest).1, step.2 ++ (run_loop mg sg dv self2 rest).2)).
Proof.
  intros H. cbn [run_loop]. rewrite H.
  destruct (_process_generation mg sg dv self inp) as [self1 evs]. cbv zeta. cbn [fst snd].
  destruct (run_loop mg sg dv _ rest) as [self3 evs']. reflexivity.
Qed.

Lemma run_loop_found (inputs : list iter_input) :
  forall self : ScannerWorker,
    _found (run_loop mg sg dv self inputs).1
    = _found self + matches_reported (run_loop mg sg dv self inputs).2.
Proof.
  induction inputs as [|inp rest IH]; intros self; [cbn; lia|].
  destruct (_running self) eqn:Hrun.
  - rewrite (run_loop_cons self inp rest Hrun). cbv zeta. cbn [fst snd].
    rewrite matches_reported_app, IH.
    pose proof (process_generation_found self inp) as Hstep.
    destruct (stop_requested inp); cbn [set_running _found]; lia.
  - rewrite run_loop_stopped by exact Hrun. cbn. lia.
Qed.

(** X8. Over any run of the loop, [_found] grows by exactly the number
    of (type, address) pairs listed in the found signals emitted: no
    match is counted without being signalled, and none is signalled
    without being counted. *)
Theorem found_counter_matches_signals (self : ScannerWorker)
    (inputs : list iter_input) :
  _found (run_loop mg sg dv self inputs).1
  = _found self + matches_reported (run_loop mg sg dv self inputs).2.
Proof. apply run_loop_found. Qed.


Lemma generate_body_size (m : string) (inp : gen_input) (mnemonic : string)
    (addresses : gmap string (option string)) (wl : string) :
  generate_body mg sg dv m inp = Ok (mnemonic, addresses, wl) ->
  size addresses = 4%nat.
Proof.
  unfold generate_body. cbv zeta.
  destruct (strengths _); [|discriminate].
  destruct (mg _ _) as [mn|]; [|discriminate].
  destruct (sg mn) as [seed|]; [|discriminate].
  intros [= _ <- _]. apply derive_all_size.
Qed.

(** Whatever [generate] returns, fresh or replayed, has four entries. *)
Lemma generate_last_ok (g : WalletGenerator) (inp : gen_input) :
  last_generation_ok g ->
  last_generation_ok (generate mg sg dv g inp).2
  /\ forall mnemonic addresses,
       (generate mg sg dv g inp).1 = Ok (mnemonic, addresses) ->
       size addresses = 4%nat.
Proof.
  unfold last_generation_ok, generate. intros Hok.
  destruct (generate_body mg sg dv (mode g) inp) as [[[m a] wl]|e] eqn:Hb.
  - apply generate_body_size in Hb. cbn. split; [exact Hb|].
    intros ? ? [= _ <-]. exact Hb.
  - destruct (_last_generation g) as [lg|] eqn:Hl; cbn; rewrite Hl.
    + split; [exact Hok|]. intros ? ? [= _ <-]. exact Hok.
    + split; [exact I|]. discriminate.
Qed.

Lemma process_generation_generator (self : ScannerWorker) (inp : iter_input) :
  generator (_process_generation mg sg dv self inp).1
  = (generate mg sg dv (generator self) (gen_in inp)).2.
Proof.
  unfold _process_generation.
  destruct (generate mg sg dv (generator self) (gen_in inp)) as [[[m a]|e] g'];
    reflexivity.
Qed.

(** One iteration, for a worker whose [_checked] is a multiple of 4:
    either no generation signal and nothing changes in the counter, or
    one generation signal, four more in the counter, and a progress
    signal exactly when the counter reaches a multiple of 100. *)
Lemma process_generation_tally (self : ScannerWorker) (inp : iter_input) :
  last_generation_ok (generator self) ->
  let r := _process_generation mg sg dv self inp in
  last_generation_ok (generator r.1)
  /\ _checked r.1 = _checked self + 4 * Z.of_nat (length (generation_signals r.2))
  /\ progress_checked r.2
     = (if (length (generation_signals r.2) =? 1)%nat
           && ((_checked self + 4) mod 100 =? 0)
        then [_checked self + 4] else [])
  /\ (length (generation_signals r.2) <= 1)%nat.
Proof.
  intros Hok. cbv zeta. rewrite process_generation_generator.
  destruct (generate_last_ok _ (gen_in inp) Hok) as [Hok' Hsize].
  split; [exact Hok'|].
  destruct ((generate mg sg dv (generator self) (gen_in inp)).1) as [[m a]|e] eqn:Hg.
  - specialize (Hsize m a eq_refl).
    destruct (process_generation_events self inp m a Hg) as (-> & -> & _).
    rewrite Hsize. set (found := find_matches _ _ _).
    rewrite !generation_signals_app, !progress_checked_app.
    unfold generation_signals.
    replace (_checked self + Z.of_nat 4) with (_checked self + 4) by lia.
    case_bool_decide; destruct (_ =? 0);
      rewrite ?filter_cons, ?filter_nil; repeat case_decide;
      try discriminate; cbn;
      try (split; [lia|split; [reflexivity|lia]]); exfalso; auto.
  - rewrite (process_generation_failure mg sg dv self inp e Hg). cbn [fst snd].
    unfold generation_signals. rewrite filter_cons, filter_nil.
    case_decide; [discriminate|]. cbn. split; [lia|split; [reflexivity|lia]].
Qed.

Lemma run_loop_tally (inputs : list iter_input) :
  forall self : ScannerWorker,
    last_generation_ok (generator self) ->
    0 <= _checked self ->
    _checked self mod 4 = 0 ->
    let r := run_loop mg sg dv self inputs in
    _checked r.1 = _checked self + 4 * Z.of_nat (length (generation_signals r.2))
    /\ progress_checked r.2
       = (fun j => 100 * j)
           <$> seqZ (_checked self / 100 + 1) (_checked r.1 / 100 - _checked self / 100).
Proof.
  induction inputs as [|inp rest IH]; intros self Hok Hpos Hmod; cbv zeta.
  - cbn. rewrite Z.sub_diag. split; [lia|reflexivity].
  - destruct (_running self) eqn:Hrun.
    2:{ rewrite run_loop_stopped by exact Hrun. cbn. rewrite Z.sub_diag.
        split; [lia|reflexivity]. }
    rewrite (run_loop_cons self inp rest Hrun). cbv zeta. cbn [fst snd].
    destruct (process_generation_tally self inp Hok) as (Hok1 & Hc1 & Hp1 & Hlen).
    set (step := _process_generation mg sg dv self inp) in *.
    set (self2 := if stop_requested inp then set_running step.1 false else step.1).
    assert (Hgen2 : generator self2 = generator step.1)
      by (unfold self2; destruct (stop_requested inp); reflexivity).
    assert (Hchk2 : _checked self2 = _checked step.1)
      by (unfold self2; destruct (stop_requested inp); reflexivity).
    destruct (IH self2) as [Hc Hp].
    { rewrite Hgen2. exact Hok1. }
    { rewrite Hchk2, Hc1. lia. }
    { rewrite Hchk2, Hc1. clear - Hmod Hlen.
      destruct (length (generation_signals step.2)) as [|[|n]]; [| |lia].
      - rewrite Z.add_0_r. exact Hmod.
      - change (4 * Z.of_nat 1) with 4. rewrite Z.add_mod, Hmod by lia. reflexivity. }
    rewrite generation_signals_app, progress_checked_app, length_app.
    rewrite Hp1, Hp, !Hc, !Hchk2, !Hc1. split; [lia|].
    set (c := _checked self) in *.
    set (g2 := length (generation_signals (run_loop mg sg dv self2 rest).2)) in *.
    destruct (length (generation_signals step.2)) as [|[|n]]; [| |lia].
    + cbn [Nat.eqb andb app]. change (4 * Z.of_nat 0) with 0.
      rewrite !Z.add_0_r. reflexivity.
    + cbn [Nat.eqb andb]. change (4 * Z.of_nat 1) with 4.
      assert (Hm100 : 0 <= c mod 100 < 100) by (apply Z.mod_pos_bound; lia).
      assert (Hm4 : (c mod 100) mod 4 = 0).
      { rewrite Z.mod_mod_divide by (exists 25; lia). exact Hmod. }
      pose proof (Z.div_mod c 100 ltac:(lia)) as Hd.
      pose proof (Z.div_mod (c mod 100) 4 ltac:(lia)) as Hd4.
      rewrite Hm4, Z.add_0_r in Hd4.
      destruct ((c + 4) mod 100 =? 0) eqn:H100.
      * apply Z.eqb_eq in H100.
        pose proof (Z.div_mod (c + 4) 100 ltac:(lia)) as Hd'.
        rewrite H100, Z.add_0_r in Hd'.
        assert (Hq : (c + 4) / 100 = c / 100 + 1) by lia.
        assert (Hge : (c + 4) / 100 <= (c + 4 + 4 * Z.of_nat g2) / 100)
          by (apply Z.div_le_mono; lia).
        rewrite (seqZ_cons (c / 100 + 1)) by lia. rewrite fmap_cons. cbn [app].
        f_equal; [lia|]. rewrite Hq. f_equal. f_equal; lia.
      * apply Z.eqb_neq in H100. cbn [app].
        assert (Hq : (c + 4) / 100 = c / 100).
        { assert (Hlt : c mod 100 + 4 < 100).
          { destruct (Z.eq_dec (c mod 100 + 4) 100) as [Heq|Hne]; [|lia].
            exfalso. apply H100.
            replace (c + 4) with (100 + 100 * (c / 100)) by lia.
            rewrite Z.mul_comm, Z_mod_plus_full. reflexivity. }
          symmetry. apply (Z.div_unique (c + 4) 100 (c / 100) (c mod 100 + 4)); lia. }
        rewrite Hq. reflexivity.
Qed.

(** X7. For a worker started on a fresh state, over any run of the loop
    (failing iterations and replayed candidates included): [_checked] is
    four times the number of generation signals emitted, and the progress
    signals carry, in order, [checked] = 100, 200, ..., one for every 25
    generation signals. *)
Theorem checked_is_four_per_generation_signal (wid : Z) (db : AddressDatabase)
    (cfg : Config) (t : Q) (inputs : list iter_input) :
  let r := run mg sg dv (ScannerWorker_init wid db cfg) t inputs in
  _checked r.1 = 4 * Z.of_nat (length (generation_signals r.2))
  /\ progress_checked r.2
     = (fun j => 100 * j) <$> seqZ 1 (Z.of_nat (length (generation_signals r.2)) / 25).
Proof.
  cbv zeta. unfold run.
  destruct (run_loop_tally inputs (run_enter (ScannerWorker_init wid db cfg) t))
    as [Hc Hp]; [exact I|cbn; lia|reflexivity|].
  cbn [run_enter _checked ScannerWorker_init] in Hc, Hp.
  rewrite Hc, Hp. split; [lia|].
  rewrite Hc. cbn [Z.add]. change (0 / 100 + 1) with 1. rewrite Z.sub_0_r.
  f_equal. f_equal.
  rewrite <- (Z.div_mul_cancel_l _ 25 4) by lia. reflexivity.
Qed.

End WorkerProperties.

Lemma found_signal_lists_exact_matches_witness :
  (generate ex_mnemonic_generate ex_seed ex_derive_hit
     (generator (ex_worker "12")) (gen_in ex_iter_input)).1
  = Ok ("legal winner thank year wave sausage worth useful legal winner thank yellow",
        derive_all ex_derive_hit [x2a])
  /\ (found_signals (_process_generation ex_mnemonic_generate ex_seed ex_derive_hit
                       (ex_worker "12") ex_iter_input).2 <> []
      <-> exists t addr,
            is_match (db (ex_worker "12")) (derive_all ex_derive_hit [x2a])
                     (active_address_types (config (ex_worker "12"))) t addr).
Proof.
  assert (H : (generate ex_mnemonic_generate ex_seed ex_derive_hit
                 (generator (ex_worker "12")) (gen_in ex_iter_input)).1
              = Ok ("legal winner thank year wave sausage worth useful legal winner thank yellow",
                    derive_all ex_derive_hit [x2a])) by reflexivity.
  split; [exact H|].
  apply (found_signal_lists_exact_matches ex_mnemonic_generate ex_seed ex_derive_hit
           (ex_worker "12") ex_iter_input _ _ H).
Defined.

(** The match of the example: the legacy address of the candidate is the
    address in the index, and the found signal lists that pair alone. *)
Example found_signal_example :
  found_signals (_process_generation ex_mnemonic_generate ex_seed ex_derive_hit
                   (ex_worker "12") ex_iter_input).2
  = [found_signal 1
       "legal winner thank year wave sausage worth useful legal winner thank yellow"
       [("P2PKH", "1BoatSLRHtKNngkdXEeobR76b53LETtpyT")] "2024-01-01T12:00:00"].
Proof. vm_compute. reflexivity. Qed.


(** ** The generator's history *)

Section HistoryProperties.

Variable mg : Z -> bytes -> result string.
Variable sg : string -> result bytes.
Variable dv : bip_class -> bip_coin -> bytes -> result string.

Lemma push_history_last_ten (done : list generation) (g : generation) :
  push_history (drop (length done - 10) done) g
  = drop (length (done ++ [g]) - 10) (done ++ [g]).
Proof.
  unfold push_history, DISPLAY_HISTORY. cbv zeta.
  rewrite <- drop_app_le by lia.
  rewrite length_drop, !length_app. cbn [length].
  destruct (Z.gtb_spec (Z.of_nat (length done + 1 - (length done - 10))) 10) as [H|H].
  - rewrite drop_drop. f_equal. lia.
  - f_equal. lia.
Qed.

Lemma run_generates_history (m : string) (pre : list gen_input) :
  let g := run_generates mg sg dv (WalletGenerator_init m) pre in
  let done := omap (fresh_record mg sg dv m) pre in
  mode g = m
  /\ generation_history g = drop (length done - 10) done
  /\ _last_generation g = last done.
Proof.
  cbv zeta. induction pre as [|inp pre (IHm & IHh & IHl)] using rev_ind.
  - repeat split.
  - unfold run_generates in *. rewrite foldl_snoc, omap_app. cbn [omap list_omap].
    set (g1 := foldl _ (WalletGenerator_init m) pre) in *.
    set (done := omap (fresh_record mg sg dv m) pre) in *.
    assert (Hf : omap (fresh_record mg sg dv m) [inp]
                 = match generate_body mg sg dv m inp with
                   | Ok (mn, a, wl) =>
                       [{| gen_mnemonic := mn; gen_addresses := a;
                           gen_time := now_hms inp; gen_word_length := wl |}]
                   | Raise _ => []
                   end).
    { cbn. unfold fresh_record.
      destruct (generate_body mg sg dv m inp) as [[[mn a] wl]|e]; reflexivity. }
    change (match fresh_record mg sg dv m inp with
            | Some y => y :: []
            | None => []
            end) with (omap (fresh_record mg sg dv m) [inp]).
    rewrite Hf. unfold generate. rewrite IHm.
    destruct (generate_body mg sg dv m inp) as [[[mn a] wl]|e].
    + cbn [snd mode generation_history _last_generation].
      rewrite IHh, push_history_last_ten, last_snoc. auto.
    + rewrite !app_nil_r. destruct (_last_generation g1) eqn:Hlast; cbn [snd];
        rewrite ?Hlast; auto.
Qed.

(** X10. After any series of [generate] calls on a fresh generator,
    [get_recent_generations] returns the records of the successful calls
    in call order, cut to the last ten of them; failed calls and replayed
    candidates add nothing, and [_last_generation] is the newest entry. *)
Theorem recent_generations_are_last_ten (m : string) (pre : list gen_input) :
  let g := run_generates mg sg dv (WalletGenerator_init m) pre in
  let done := omap (fresh_record mg sg dv m) pre in
  get_recent_generations g = drop (length done - 10) done
  /\ (length (get_recent_generations g) <= 10)%nat
  /\ _last_generation g = last (get_recent_generations g).
Proof.
  cbv zeta. destruct (run_generates_history m pre) as (_ & Hh & Hl).
  unfold get_recent_generations. rewrite Hh, Hl.
  split; [reflexivity|]. split; [rewrite length_drop; lia|].
  set (done := omap (fresh_record mg sg dv m) pre).
  destruct (decide (done = [])) as [->|Hne]; [reflexivity|].
  apply last_is_Some in Hne as [x Hx]. rewrite Hx.
  apply last_Some in Hx as [l' ->]. rewrite length_app. cbn [length].
  rewrite drop_app_le by lia. rewrite last_snoc. reflexivity.
Qed.

End HistoryProperties.

(** ** Starting a scan: the workers spawned *)

Lemma mode_of_text_valid (text : string) :
  mode_of_text text = "random" \/ mode_of_text text = "12" \/ mode_of_text text = "24".
Proof. unfold mode_of_text. repeat case_bool_decide; auto. Qed.

(** X11. A scan started with addresses loaded has exactly as many
    workers as threads were selected, with pairwise distinct ids; each
    starts from zero counters and an empty generator, and each has a mode
    for which the choice of the mnemonic strength cannot fail: it is 128
    or 256 bits whatever the mode combo box showed. *)
Theorem start_scan_workers_fresh_and_distinct (self : MainWindow) :
  count (address_db self) <> 0 ->
  length (workers (start_scan self)) = Z.to_nat (spn_threads self)
  /\ NoDup (map id (workers (start_scan self)))
  /\ Forall (fun w =>
               _checked w = 0 /\ _found w = 0
               /\ _last_generation (generator w) = None
               /\ forall inp,
                    strengths (word_length_of (mode (generator w)) inp) = Ok 128
                    \/ strengths (word_length_of (mode (generator w)) inp) = Ok 256)
            (workers (start_scan self)).
Proof.
  intros Hc. unfold start_scan. apply Z.eqb_neq in Hc. rewrite Hc.
  cbn [workers thread_limit]. rewrite stop_scan_workers, stop_scan_address_db.
  cbn [app address_db]. unfold spawn_workers.
  split; [rewrite length_map, length_seq; reflexivity|]. split.
  - rewrite map_map. cbn [ScannerWorker_init id].
    assert (Hinj : Inj (=) (=) (fun i : nat => Z.of_nat i + 1))
      by (intros i j Hij; lia).
    apply (NoDup_fmap_2 (fun i : nat => Z.of_nat i + 1)), NoDup_seq.
  - apply Forall_forall. intros w Hw.
    apply list_elem_of_fmap in Hw as (i & -> & _).
    cbn [ScannerWorker_init _checked _found generator WalletGenerator_init
         _last_generation mode mnemonic_mode].
    repeat split. intros inp. unfold word_length_of, strengths.
    destruct (mode_of_text_valid (cmb_mode self)) as [Hm | [Hm | Hm]];
      rewrite Hm; cbn; destruct (choice_24 inp); auto.
Qed.

Lemma start_scan_workers_fresh_and_distinct_witness :
  count (address_db ex_window_no_types) <> 0
  /\ length (workers (start_scan ex_window_no_types))
     = Z.to_nat (spn_threads ex_window_no_types)
  /\ NoDup (map id (workers (start_scan ex_window_no_types))).
Proof.
  assert (H : count (address_db ex_window_no_types) <> 0) by (vm_compute; discriminate).
  split; [exact H|].
  destruct (start_scan_workers_fresh_and_distinct ex_window_no_types H)
    as (Hlen & Hnd & _).
  split; [exact Hlen|exact Hnd].
Defined.

(** ** The configuration *)

Lemma setdefault_lookup (key : string) (value : json) (config : gmap string json)
    (k : string) :
  setdefault key value config !! k
  = if bool_decide (k = key)
    then Some (default value (config !! key))
    else config !! k.
Proof.
  unfold setdefault. case_bool_decide as Hk.
  - subst k. destruct (config !! key) as [v|] eqn:H; cbn.
    + exact H.
    + apply lookup_insert_eq.
  - destruct (config !! key) as [v|] eqn:H; [reflexivity|].
    apply lookup_insert_ne. congruence.
Qed.

Lemma migrate_config_lookup (home : string) (config : gmap string json) (k : string) :
  _migrate_config home config !! k
  = if bool_decide (k = "version") then Some (JStr VERSION)
    else if bool_decide (k = "performance_mode")
         then Some (default (JBool false) (config !! "performance_mode"))
    else if bool_decide (k = "last_directory")
         then Some (default (JStr home) (config !! "last_directory"))
    else config !! k.
Proof.
  unfold _migrate_config. rewrite !setdefault_lookup.
  rewrite !lookup_insert_ne by discriminate.
  repeat case_bool_decide; subst; try discriminate; try reflexivity.
  - apply lookup_insert_eq.
  - apply lookup_insert_ne. congruence.
Qed.


Lemma version_differs_false (config : gmap string json) :
  version_differs config = false <-> config !! "version" = Some (JStr VERSION).
Proof.
  unfold version_differs. split.
  - destruct (config !! "version") as [[]|]; try discriminate.
    intros H. apply negb_false_iff, bool_decide_eq_true in H. congruence.
  - intros ->. rewrite bool_decide_eq_true_2 by reflexivity. reflexivity.
Qed.


(** X13. Whatever is at the config path, the config [_load_config]
    returns carries the current version.  Without a usable file it is the
    default config, whose thread limit is [max(1, cpu_count - 2)], at
    least 1; with a file of the current version it is the file's object
    as it stands; with any other object it is the object migrated, so
    that apart from the version and the two migrated defaults no missing
    key is filled in. *)
Theorem load_config_has_current_version (cpu_count : Z) (home : string)
    (file : config_file) :
  _load_config cpu_count home file !! "version" = Some (JStr VERSION)
  /\ (file = NoConfigFile \/ file = BrokenConfigFile ->
      _load_config cpu_count home file = default_config cpu_count home
      /\ exists n, default_config cpu_count home !! "thread_limit" = Some (JNum n)
                   /\ 1 <= n /\ cpu_count - 2 <= n)
  /\ (forall config, file = ConfigObject config ->
      (config !! "version" = Some (JStr VERSION) ->
       _load_config cpu_count home file = config)
      /\ forall k, k <> "version" -> k <> "performance_mode" ->
                   k <> "last_directory" ->
                   _load_config cpu_count home file !! k = config !! k).
Proof.
  split; [|split].
  - destruct file as [| |config]; cbn [_load_config]; try reflexivity.
    destruct (version_differs config) eqn:Hv.
    + rewrite migrate_config_lookup. reflexivity.
    + apply version_differs_false. exact Hv.
  - intros [-> | ->]; (split; [reflexivity|]);
      exists (Z.max 1 (cpu_count - 2)); (split; [reflexivity|lia]).
  - intros config ->. cbn [_load_config]. split.
    + intros Hv. apply version_differs_false in Hv. rewrite Hv. reflexivity.
    + intros k H1 H2 H3. destruct (version_differs config); [|reflexivity].
      rewrite migrate_config_lookup.
      rewrite !bool_decide_eq_false_2 by assumption. reflexivity.
Qed.



(** The old config of the example after loading: version stamped, the two
    defaults added, the user's thread limit and mode kept. *)
Example load_old_config_example :
  _load_config 8 "/home/user" (ConfigObject ex_old_config)
  = list_to_map [ ("version", JStr "5.0.0"); ("thread_limit", JNum 6);
                  ("mnemonic_mode", JStr "24"); ("performance_mode", JBool false);
                  ("last_directory", JStr "/home/user") ].
Proof. vm_compute. reflexivity. Qed.

(** X15. The two mode maps undo each other: a mode among "random", "12"
    and "24" shown in the combo box by [load_config] is read back
    unchanged by [update_config_mode] and [start_scan], any other stored
    mode comes back as "random", and [update_config_mode] always stores
    one of the three modes, touching no other key. *)
Theorem mode_maps_round_trip (m : string) (config : gmap string json) :
  mode_of_text (text_of_mode m)
  = (if bool_decide (m = "12") then "12"
     else if bool_decide (m = "24") then "24" else "random")
  /\ text_of_mode (mode_of_text (text_of_mode m)) = text_of_mode m
  /\ (exists v, update_config_mode (text_of_mode m) config !! "mnemonic_mode"
                = Some (JStr v)
                /\ (v = "random" \/ v = "12" \/ v = "24")
                /\ text_of_mode v = text_of_mode m)
  /\ (forall k, k <> "mnemonic_mode" ->
                update_config_mode (text_of_mode m) config !! k = config !! k).
Proof.
  assert (H1 : mode_of_text (text_of_mode m)
               = (if bool_decide (m = "12") then "12"
                  else if bool_decide (m = "24") then "24" else "random")).
  { unfold text_of_mode.
    destruct (bool_decide (m = "random")) eqn:E1.
    { apply bool_decide_eq_true in E1. subst m. reflexivity. }
    destruct (bool_decide (m = "12")); [reflexivity|].
    destruct (bool_decide (m = "24")); reflexivity. }
  assert (H2 : text_of_mode (mode_of_text (text_of_mode m)) = text_of_mode m).
  { rewrite H1. unfold text_of_mode.
    destruct (bool_decide (m = "random")) eqn:E1.
    { apply bool_decide_eq_true in E1. subst m. reflexivity. }
    destruct (bool_decide (m = "12")); [reflexivity|].
    destruct (bool_decide (m = "24")); reflexivity. }
  split; [exact H1|]. split; [exact H2|]. split.
  - exists (mode_of_text (text_of_mode m)). unfold update_config_mode.
    rewrite lookup_insert_eq. split; [reflexivity|]. split; [|exact H2].
    destruct (mode_of_text_valid (text_of_mode m)) as [H | [H | H]]; auto.
  - intros k Hk. unfold update_config_mode. apply lookup_insert_ne. congruence.
Qed.

(** ** The window's slots *)

Lemma matches_reported_Permutation (evs evs' : list event) :
  evs ≡ₚ evs' -> matches_reported evs = matches_reported evs'.
Proof.
  induction 1 as [|ev l l' _ IH|ev1 ev2 l|l1 l2 l3 _ IH1 _ IH2].
  - reflexivity.
  - destruct ev; cbn [matches_reported]; lia.
  - destruct ev1, ev2; cbn [matches_reported]; lia.
  - congruence.
Qed.

Lemma sum_Z_app (l1 l2 : list Z) : sum_Z (l1 ++ l2) = sum_Z l1 + sum_Z l2.
Proof. unfold sum_Z. induction l1 as [|x l1 IH]; cbn; lia. Qed.

Lemma sum_Z_Permutation (l l' : list Z) : l ≡ₚ l' -> sum_Z l = sum_Z l'.
Proof.
  unfold sum_Z.
  induction 1 as [|x l l' _ IH|x y l|l1 l2 l3 _ IH1 _ IH2]; cbn; lia.
Qed.

Lemma progress_checked_Permutation (evs evs' : list event) :
  evs ≡ₚ evs' -> progress_checked evs ≡ₚ progress_checked evs'.
Proof.
  induction 1 as [|ev l l' _ IH|ev1 ev2 l|l1 l2 l3 _ IH1 _ IH2].
  - reflexivity.
  - destruct ev; cbn; [exact IH|exact IH|constructor; exact IH|exact IH|exact IH].
  - destruct ev1, ev2; cbn; try reflexivity. apply perm_swap.
  - etrans; eassumption.
Qed.

(** What one delivery does to the two totals. *)
Lemma deliver_totals (d : Dashboard) (x : delivery) :
  dash_total_found (deliver d x)
  = dash_total_found d + matches_reported [dl_event x]
  /\ dash_total_checked (deliver d x)
     = dash_total_checked d + sum_Z (progress_checked [dl_event x])
  /\ (lbl_checked d = dash_total_checked d ->
      lbl_checked (deliver d x) = dash_total_checked (deliver d x)).
Proof.
  unfold deliver. destruct x as [ev w now]. cbn [dl_event].
  destruct ev; cbn; repeat split; auto; lia.
Qed.

(** What a series of deliveries does to the two totals. *)
Lemma deliver_all_totals (ds : list delivery) :
  forall d : Dashboard,
    dash_total_found (deliver_all d ds)
    = dash_total_found d + matches_reported (map dl_event ds)
    /\ dash_total_checked (deliver_all d ds)
       = dash_total_checked d + sum_Z (progress_checked (map dl_event ds))
    /\ (lbl_checked d = dash_total_checked d ->
        lbl_checked (deliver_all d ds) = dash_total_checked (deliver_all d ds)).
Proof.
  induction ds as [|x ds IH]; intros d; [cbn; repeat split; [lia|lia|auto]|].
  unfold deliver_all in *. cbn [foldl map].
  destruct (IH (deliver d x)) as (Hf & Hc & Hl).
  destruct (deliver_totals d x) as (Hf1 & Hc1 & Hl1).
  change (dl_event x :: map dl_event ds) with ([dl_event x] ++ map dl_event ds).
  rewrite matches_reported_app, progress_checked_app, sum_Z_app.
  rewrite Hf, Hc, Hf1, Hc1. repeat split; [lia|lia|].
  intros H. rewrite Hl by (apply Hl1; exact H). rewrite Hc, Hc1. reflexivity.
Qed.

(** X16. Once the signals of all workers have reached the window, in
    whatever order the workers' signals interleave and whether or not
    the results file could be written, [total_found] has grown by the sum
    of what the workers' own [_found] counters have grown by. *)
Theorem total_found_sums_the_workers (mg : Z -> bytes -> result string)
    (sg : string -> result bytes)
    (dv : bip_class -> bip_coin -> bytes -> result string)
    (runs : list (ScannerWorker * list iter_input)) (d : Dashboard)
    (ds : list delivery) :
  map dl_event ds ≡ₚ concat (map (fun r => (run_loop mg sg dv r.1 r.2).2) runs) ->
  dash_total_found (deliver_all d ds)
  = dash_total_found d
    + sum_Z (map (fun r => _found (run_loop mg sg dv r.1 r.2).1 - _found r.1) runs).
Proof.
  intros Hperm. destruct (deliver_all_totals ds d) as (-> & _ & _).
  rewrite (matches_reported_Permutation _ _ Hperm). f_equal. clear.
  induction runs as [|[w ins] runs IH]; [reflexivity|].
  cbn [map concat]. rewrite matches_reported_app, IH. cbn [fst snd].
  pose proof (run_loop_found mg sg dv ins w). unfold sum_Z in *. cbn. lia.
Qed.

Lemma total_found_sums_the_workers_witness :
  map dl_event
      (map (fun ev => mk_delivery ev false 10%Q)
           (run_loop ex_mnemonic_generate ex_seed ex_derive_hit
                     (run_enter (ex_worker "12") 0%Q) [ex_iter_input; ex_iter_input]).2)
    ≡ₚ concat (map (fun r => (run_loop ex_mnemonic_generate ex_seed ex_derive_hit
                                       r.1 r.2).2)
                   [(run_enter (ex_worker "12") 0%Q, [ex_iter_input; ex_iter_input])])
  /\ dash_total_found
       (deliver_all ex_dashboard
          (map (fun ev => mk_delivery ev false 10%Q)
               (run_loop ex_mnemonic_generate ex_seed ex_derive_hit
                         (run_enter (ex_worker "12") 0%Q)
                         [ex_iter_input; ex_iter_input]).2))
     = 2.
Proof.
  assert (H : map dl_event
      (map (fun ev => mk_delivery ev false 10%Q)
           (run_loop ex_mnemonic_generate ex_seed ex_derive_hit
                     (run_enter (ex_worker "12") 0%Q) [ex_iter_input; ex_iter_input]).2)
    ≡ₚ concat (map (fun r => (run_loop ex_mnemonic_generate ex_seed ex_derive_hit
                                       r.1 r.2).2)
                   [(run_enter (ex_worker "12") 0%Q, [ex_iter_input; ex_iter_input])])).
  { rewrite map_map. cbn [dl_event map concat fst snd]. rewrite map_id, app_nil_r.
    reflexivity. }
  split; [exact H|].
  rewrite (total_found_sums_the_workers ex_mnemonic_generate ex_seed ex_derive_hit
             _ ex_dashboard _ H).
  vm_compute. reflexivity.
Defined.

Lemma sum_hundreds (n : nat) :
  sum_Z ((fun j => 100 * j) <$> seqZ 1 (Z.of_nat n))
  = 50 * Z.of_nat n * (Z.of_nat n + 1).
Proof.
  induction n as [|n IH]; [reflexivity|].
  rewrite seqZ_S, fmap_app, sum_Z_app, IH. unfold sum_Z. cbn [fmap list_fmap foldr].
  lia.
Qed.

(** X17. [update_stats] adds the cumulative [checked] of every progress
    signal to [total_checked].  So once the signals of workers started
    on fresh states have reached the window, in any interleaving, the
    total has grown by [50 * k * (k + 1)] for each worker, where
    [k = _checked // 100] counts that worker's progress signals, and the
    checked label, kept equal to the total, shows that number rather than
    the sum of the workers' [_checked]. *)
Theorem total_checked_adds_cumulative_counts (mg : Z -> bytes -> result string)
    (sg : string -> result bytes)
    (dv : bip_class -> bip_coin -> bytes -> result string)
    (runs : list (ScannerWorker * list iter_input)) (d : Dashboard)
    (ds : list delivery) :
  Forall (fun r => _checked r.1 = 0 /\ _last_generation (generator r.1) = None) runs ->
  map dl_event ds ≡ₚ concat (map (fun r => (run_loop mg sg dv r.1 r.2).2) runs) ->
  dash_total_checked (deliver_all d ds)
  = dash_total_checked d
    + sum_Z (map (fun r => 50 * (_checked (run_loop mg sg dv r.1 r.2).1 / 100)
                           * (_checked (run_loop mg sg dv r.1 r.2).1 / 100 + 1)) runs)
  /\ (lbl_checked d = dash_total_checked d ->
      lbl_checked (deliver_all d ds) = dash_total_checked (deliver_all d ds)).
Proof.
  intros Hfresh Hperm. destruct (deliver_all_totals ds d) as (_ & -> & Hl).
  split; [|exact Hl]. f_equal.
  rewrite (sum_Z_Permutation _ _ (progress_checked_Permutation _ _ Hperm)).
  clear Hperm Hl. induction Hfresh as [|[w ins] runs [Hc Hg] _ IH]; [reflexivity|].
  cbn [map concat fst snd] in *. rewrite progress_checked_app, sum_Z_app, IH.
  change (sum_Z (?x :: ?l)) with (x + sum_Z l). f_equal.
  destruct (run_loop_tally mg sg dv ins w) as [Hchk Hp].
  { unfold last_generation_ok. rewrite Hg. exact I. }
  { lia. }
  { rewrite Hc. reflexivity. }
  rewrite Hp, Hc. change (0 / 100 + 1) with 1. change (0 / 100) with 0.
  rewrite Z.sub_0_r.
  assert (Hk : 0 <= _checked (run_loop mg sg dv w ins).1 / 100).
  { apply Z.div_pos; lia. }
  rewrite <- (Z2Nat.id _ Hk) at 1. rewrite sum_hundreds, Z2Nat.id by exact Hk.
  reflexivity.
Qed.

Lemma total_checked_adds_cumulative_counts_witness :
  (Forall (fun r => _checked r.1 = 0 /\ _last_generation (generator r.1) = None)
          [(run_enter (ex_worker "12") 0%Q, replicate 50 ex_iter_input)]
   /\ map dl_event
        (map (fun ev => mk_delivery ev true 10%Q)
             (run_loop ex_mnemonic_generate ex_seed ex_derive
                       (run_enter (ex_worker "12") 0%Q) (replicate 50 ex_iter_input)).2)
      ≡ₚ concat (map (fun r => (run_loop ex_mnemonic_generate ex_seed ex_derive
                                         r.1 r.2).2)
                     [(run_enter (ex_worker "12") 0%Q, replicate 50 ex_iter_input)]))
  /\ dash_total_checked
       (deliver_all ex_dashboard
          (map (fun ev => mk_delivery ev true 10%Q)
               (run_loop ex_mnemonic_generate ex_seed ex_derive
                         (run_enter (ex_worker "12") 0%Q)
                         (replicate 50 ex_iter_input)).2))
     = 300
  /\ _checked (run_loop ex_mnemonic_generate ex_seed ex_derive
                 (run_enter (ex_worker "12") 0%Q) (replicate 50 ex_iter_input)).1
     = 200.
Proof.
  assert (H1 : Forall (fun r => _checked r.1 = 0
                                /\ _last_generation (generator r.1) = None)
                 [(run_enter (ex_worker "12") 0%Q, replicate 50 ex_iter_input)]).
  { constructor; [split; reflexivity|constructor]. }
  assert (H2 : map dl_event
        (map (fun ev => mk_delivery ev true 10%Q)
             (run_loop ex_mnemonic_generate ex_seed ex_derive
                       (run_enter (ex_worker "12") 0%Q) (replicate 50 ex_iter_input)).2)
      ≡ₚ concat (map (fun r => (run_loop ex_mnemonic_generate ex_seed ex_derive
                                         r.1 r.2).2)
                     [(run_enter (ex_worker "12") 0%Q, replicate 50 ex_iter_input)])).
  { rewrite map_map. cbn [dl_event map concat fst snd]. rewrite map_id, app_nil_r.
    reflexivity. }
  split; [split; [exact H1|exact H2]|].
  destruct (total_checked_adds_cumulative_counts ex_mnemonic_generate ex_seed ex_derive
              _ ex_dashboard _ H1 H2) as [-> _].
  split; vm_compute; reflexivity.
Defined.

(** ** The generation table *)

Lemma add_generation_last_ten (done : list table_row) (time mnemonic : string)
    (addresses : gmap string (option string)) :
  add_generation (drop (length done - 10) done) time mnemonic addresses
  = drop (length (done ++ [mk_table_row time mnemonic (addresses_text addresses)]) - 10)
         (done ++ [mk_table_row time mnemonic (addresses_text addresses)]).
Proof.
  unfold add_generation, DISPLAY_HISTORY. cbv zeta.
  rewrite <- drop_app_le by lia.
  rewrite length_drop, !length_app. cbn [length].
  destruct (Z.gtb_spec (Z.of_nat (length done + 1 - (length done - 10))) 10) as [H|H].
  - rewrite drop_drop. f_equal. lia.
  - f_equal. lia.
Qed.

Lemma deliver_all_table (ds : list delivery) :
  forall (d : Dashboard) (done : list table_row),
    generation_table d = drop (length done - 10) done ->
    generation_table (deliver_all d ds)
    = drop (length (done ++ generation_rows (map dl_event ds)) - 10)
           (done ++ generation_rows (map dl_event ds)).
Proof.
  induction ds as [|x ds IH]; intros d done Hd.
  - cbn. rewrite app_nil_r. exact Hd.
  - unfold deliver_all in *. cbn [foldl map]. destruct x as [ev w now].
    unfold generation_rows. cbn [omap list_omap dl_event].
    destruct ev as [wk m ms ts|wk m a tm|wk c f s|wk e|wk e];
      try (apply IH; unfold deliver; cbn; exact Hd).
    rewrite cons_middle, app_assoc. apply IH.
    unfold deliver. cbn. rewrite Hd. apply add_generation_last_ten.
Qed.

Lemma address_lines_of_items
    (dv : bip_class -> bip_coin -> bytes -> result string) (seed : bytes)
    (addresses : gmap string (option string))
    (paths : list (string * (bip_class * bip_coin))) :
  (forall item, item ∈ paths ->
     addresses !! item.1 = Some (address_or_none (dv item.2.1 item.2.2 seed))) ->
  omap (fun kv : string * option string =>
          match kv.2 with
          | Some v => if bool_decide (v = "") then None
                      else Some (kv.1 +:+ ": " +:+ v)
          | None => None
          end)
       (omap (fun item : string * (bip_class * bip_coin) =>
                (fun v => (item.1, v)) <$> addresses !! item.1) paths)
  = omap (address_line dv seed) paths.
Proof.
  induction paths as [|item paths IH]; intros H; [reflexivity|].
  cbn [omap list_omap]. rewrite (H item) by left. cbn [fmap option_fmap option_map].
  rewrite <- IH by (intros i Hi; apply H; right; exact Hi).
  unfold address_line. destruct (dv item.2.1 item.2.2 seed) as [a|e]; cbn;
    [case_bool_decide|]; reflexivity.
Qed.

Lemma addresses_text_derive_all
    (dv : bip_class -> bip_coin -> bytes -> result string) (seed : bytes) :
  addresses_text (derive_all dv seed)
  = join_lines (omap (address_line dv seed) DERIVATION_PATHS).
Proof.
  unfold addresses_text, dict_items. f_equal.
  apply address_lines_of_items.
  intros [t [cls coin]] Hin. apply derive_all_lookup. exact Hin.
Qed.

(** X18. The generation table shows the rows of the last ten generation
    signals that reached the window, in arrival order, and never more
    than ten; other signals leave it alone.  The addresses column of a
    candidate produced by [generate] has one line "type: address" per
    address type whose derivation succeeded, in the order legacy, nested,
    native, taproot; a type whose derivation raised is left out. *)
Theorem generation_table_shows_last_ten (d : Dashboard) (ds : list delivery) :
  generation_table d = [] ->
  generation_table (deliver_all d ds)
  = drop (length (generation_rows (map dl_event ds)) - 10)
         (generation_rows (map dl_event ds))
  /\ (length (generation_table (deliver_all d ds)) <= 10)%nat
  /\ forall (dv : bip_class -> bip_coin -> bytes -> result string) (seed : bytes),
       addresses_text (derive_all dv seed)
       = join_lines (omap (address_line dv seed) DERIVATION_PATHS).
Proof.
  intros Hd. rewrite (deliver_all_table ds d []) by exact Hd. cbn [app].
  split; [reflexivity|]. split; [rewrite length_drop; lia|].
  apply addresses_text_derive_all.
Qed.

Lemma generation_table_shows_last_ten_witness :
  generation_table ex_dashboard = []
  /\ length (generation_table
               (deliver_all ex_dashboard
                  (map (fun ev => mk_delivery ev true 10%Q)
                       (run_loop ex_mnemonic_generate ex_seed ex_derive_no_taproot
                                 (run_enter (ex_worker "12") 0%Q)
                                 (replicate 12 ex_iter_input)).2))) = 10%nat.
Proof.
  split; [reflexivity|].
  destruct (generation_table_shows_last_ten ex_dashboard
              (map (fun ev => mk_delivery ev true 10%Q)
                   (run_loop ex_mnemonic_generate ex_seed ex_derive_no_taproot
                             (run_enter (ex_worker "12") 0%Q)
                             (replicate 12 ex_iter_input)).2) eq_refl) as (-> & _ & _).
  vm_compute. reflexivity.
Defined.

(** The addresses column when the taproot derivation raises. *)
Example addresses_text_example :
  addresses_text (derive_all ex_derive_no_taproot [x2a])
  = "P2PKH: 1PbdWpp4kx8Zt2JXoBCPJDhQf7gHt1tnsL" +:+ nl
    +:+ "P2SH-P2WPKH: 3Qm9S5gmH7yzPc3wWdNVvhdzWEN9HmfcMN" +:+ nl
    +:+ "P2WPKH: bc1q0xc3a0jsy6tr6qv43hkrx6xvgl3xwhqls8z2vm".
Proof. vm_compute. reflexivity. Qed.

(** ** Loading an address file from the window *)

Lemma get_sample_addresses_positive (self : AddressDatabase) (count : Z) :
  1 <= count ->
  exists l : list string,
    get_sample_addresses self count = Ok l
    /\ Z.of_nat (length l) <= count
    /\ (Z.of_nat (length (address_list self)) <= count -> l = address_list self)
    /\ l `sublist_of` address_list self.
Proof.
  intros Hpos. unfold get_sample_addresses, floordiv, slice_step.
  destruct (_ <=? count) eqn:Hle.
  - apply Z.leb_le in Hle. exists (address_list self). repeat split; auto; lia.
  - apply Z.leb_gt in Hle.
    destruct (count =? 0) eqn:H0; [apply Z.eqb_eq in H0; lia|].
    assert (Hstep : 1 <= Z.of_nat (length (address_list self)) / count)
      by (apply Z.div_le_lower_bound; lia).
    destruct (Z.of_nat (length (address_list self)) / count =? 0) eqn:H1;
      [apply Z.eqb_eq in H1; lia|].
    destruct (0 <? Z.of_nat (length (address_list self)) / count) eqn:H2;
      [|apply Z.ltb_ge in H2; lia].
    eexists. split; [reflexivity|]. split; [apply slice_to_length; lia|].
    split; [lia|].
    etrans; [apply slice_to_sublist|apply stride_from_sublist].
Qed.

(** X19. A file loaded through the window ends up consistently
    displayed.  When the database has only ever been changed by loads,
    the dialog is not cancelled, the load succeeds and [address_files] is
    a list, [load_address_file] raises nothing: the address table then
    shows at most 20 addresses, in the order of the file and each a
    member of the index, and the whole list when it has at most 20
    entries; the status shows the count, [address_count] in the config is
    that count, and the path is appended to [address_files]. *)
Theorem load_address_file_shows_sample (path_str path_parent : string -> string)
    (self : LoaderWindow) (calls : list load_call) (dialog_path : string)
    (fs : filesystem) (t0 t1 : Q) (written : bool) (files : list json) :
  lw_db self = run_loads path_str AddressDatabase_init calls ->
  dialog_path <> "" ->
  (load path_str (lw_db self) fs t0 t1 dialog_path).1 = true ->
  lw_config self !! "address_files" = Some (JArr files) ->
  let r := load_address_file path_str path_parent self dialog_path fs t0 t1 written in
  r.1 = None
  /\ lw_db r.2 = (load path_str (lw_db self) fs t0 t1 dialog_path).2
  /\ (length (address_table r.2) <= 20)%nat
  /\ address_table r.2 `sublist_of` address_list (lw_db r.2)
  /\ Forall (fun a => contains (lw_db r.2) a = true) (address_table r.2)
  /\ ((length (address_list (lw_db r.2)) <= 20)%nat ->
      address_table r.2 = address_list (lw_db r.2))
  /\ lw_status r.2 = Some (count (lw_db r.2))
  /\ lw_config r.2 !! "address_count" = Some (JNum (count (lw_db r.2)))
  /\ lw_config r.2 !! "address_files" = Some (JArr (files ++ [JStr dialog_path]))
  /\ lw_config r.2 !! "last_directory" = Some (JStr (path_parent dialog_path)).
Proof.
  intros Hdb Hpath Hok Hfiles. cbv zeta. unfold load_address_file.
  rewrite bool_decide_eq_false_2 by exact Hpath.
  assert (Hcons : db_consistent (load path_str (lw_db self) fs t0 t1 dialog_path).2).
  { apply load_consistent. rewrite Hdb.
    apply run_loads_consistent, db_init_consistent. }
  destruct (load path_str (lw_db self) fs t0 t1 dialog_path) as [ok db1].
  cbn [fst snd] in *. subst ok.
  rewrite lookup_insert_ne by discriminate. rewrite Hfiles.
  destruct (get_sample_addresses_positive db1 20 ltac:(lia))
    as (l & -> & Hlen & Hall & Hsub).
  cbn [fst snd lw_db address_table lw_status lw_config]. unfold load_addresses.
  split; [reflexivity|]. split; [reflexivity|]. split; [lia|].
  split; [exact Hsub|]. split.
  - apply Forall_forall. intros a Ha.
    destruct Hcons as (Hset & _). unfold contains.
    rewrite Hset, bool_decide_eq_true, elem_of_list_to_set.
    eapply elem_of_sublist; [exact Ha|exact Hsub].
  - split; [intros H; apply Hall; lia|]. split; [reflexivity|].
    split; [apply lookup_insert_eq|]. split.
    + rewrite lookup_insert_ne by discriminate. apply lookup_insert_eq.
    + rewrite !lookup_insert_ne by discriminate. apply lookup_insert_eq.
Qed.

Lemma load_address_file_shows_sample_witness :
  (lw_db ex_loader = run_loads ex_path_str AddressDatabase_init []
   /\ "addresses.txt" <> ""
   /\ (load ex_path_str (lw_db ex_loader) (ex_fs (Content ex_file_three)) 0%Q 1%Q
            "addresses.txt").1 = true
   /\ lw_config ex_loader !! "address_files" = Some (JArr []))
  /\ address_table
       (load_address_file ex_path_str ex_path_str ex_loader "addresses.txt"
          (ex_fs (Content ex_file_three)) 0%Q 1%Q true).2
     = address_list
         (lw_db (load_address_file ex_path_str ex_path_str ex_loader "addresses.txt"
                   (ex_fs (Content ex_file_three)) 0%Q 1%Q true).2).
Proof.
  assert (H1 : "addresses.txt" <> "") by discriminate.
  assert (H2 : (load ex_path_str (lw_db ex_loader) (ex_fs (Content ex_file_three))
                     0%Q 1%Q "addresses.txt").1 = true) by (vm_compute; reflexivity).
  assert (H3 : lw_config ex_loader !! "address_files" = Some (JArr []))
    by reflexivity.
  split; [split; [reflexivity|split; [exact H1|split; [exact H2|exact H3]]]|].
  destruct (load_address_file_shows_sample ex_path_str ex_path_str ex_loader []
              "addresses.txt" (ex_fs (Content ex_file_three)) 0%Q 1%Q true []
              eq_refl H1 H2 H3) as (_ & _ & _ & _ & _ & Hall & _).
  apply Hall. vm_compute. lia.
Defined.

(** X20. What [load_address_file] leaves alone.  A cancelled dialog
    changes nothing at all.  A load that fails raises nothing, logs the
    failure and keeps the index, the address table, the status, the
    config file and [address_files] and [address_count] as they were:
    only [last_directory], and the bookkeeping of the database, are
    touched. *)
Theorem load_address_file_failure_keeps_display
    (path_str path_parent : string -> string)
    (self : LoaderWindow) (dialog_path : string)
    (fs : filesystem) (t0 t1 : Q) (written : bool) :
  let r := load_address_file path_str path_parent self dialog_path fs t0 t1 written in
  (dialog_path = "" -> r = (None, self))
  /\ (dialog_path <> "" ->
      (load path_str (lw_db self) fs t0 t1 dialog_path).1 = false ->
      r.1 = None
      /\ lw_log r.2 = lw_log self ++ [llog_failed]
      /\ addresses (lw_db r.2) = addresses (lw_db self)
      /\ address_list (lw_db r.2) = address_list (lw_db self)
      /\ count (lw_db r.2) = count (lw_db self)
      /\ address_table r.2 = address_table self
      /\ lw_status r.2 = lw_status self
      /\ lw_config_file r.2 = lw_config_file self
      /\ forall k, k <> "last_directory" -> lw_config r.2 !! k = lw_config self !! k).
Proof.
  cbv zeta. unfold load_address_file. split.
  - intros ->. reflexivity.
  - intros Hpath Hfail. rewrite bool_decide_eq_false_2 by exact Hpath.
    destruct (load_failure_keeps_snapshot path_str (lw_db self) fs t0 t1 dialog_path
                Hfail) as (Ha & Hl & Hc & _).
    destruct (load path_str (lw_db self) fs t0 t1 dialog_path) as [ok db1].
    cbn [fst snd] in *. subst ok. cbn [fst snd lw_log lw_db address_table lw_status
                                        lw_config_file lw_config].
    unfold count. repeat split; auto.
    intros k Hk. apply lookup_insert_ne. congruence.
Qed.
